(** * SMCAnalyzer: swing points, market structure and signal scoring

    A shallow embedding of [src/smc_analyzer.py] (class [SMCAnalyzer]).

    Modelling choices, all read off the source:
    - Python exceptions are an error monad [M A := exn + A].  A [try/except
      Exception] block catches what is an [Exception], formats it for the log
      (the f-string calls its [__str__]) and returns the default; anything
      else, and an exception raised by the formatting, leaves the method.
    - A cell of the frame is a float (a number or NaN), a [str], or an
      object that compares with nothing ([None]).  A number is modelled by
      the rational it denotes; comparisons between numbers are exact, a
      comparison with NaN is false, two strings compare by their characters,
      and every other pairing raises [TypeError].
    - The one division and the one product of the source are binary64
      operations: [fl] rounds a rational to the nearest double, ties to even
      (the exponent range is not modelled: the tallies of the source are at
      most 7).  [round(x, 1)] rounds the exact value of [x] to tenths, ties
      to even, and its result is denoted by that decimal.
    - The data frame is modelled by its row labels ([df.index]) and its two
      columns ['High'] and ['Low'], each of which may be absent.  An input
      may also be [None], or an object whose [__len__] raises.
    - Positions are naturals: the source only ever builds positions
      [i >= swing_length], so [i - swing_length] never goes below zero, and
      where [len(df) - swing_length] is negative in Python the range is empty,
      as it is here with the truncated subtraction. *)

From Stdlib Require Import List Bool Arith PeanoNat ZArith QArith Qround Qminmax.
From Stdlib Require Import Qabs Qpower Sorted Lia Lqa.
From Stdlib Require Strings.String.
Import ListNotations.

Local Open Scope nat_scope.

(** ** Exceptions *)

(** [KeyboardInterrupt] stands for the exceptions that are not instances of
    [Exception]; [Unprintable] for an instance of [Exception] whose [__str__]
    does not return a string. *)
Inductive exn : Type :=
| KeyError
| IndexError
| TypeError
| AttributeError
| KeyboardInterrupt
| Unprintable.

(** [isinstance(e, Exception)] *)
Definition is_Exception (e : exn) : bool :=
  match e with
  | KeyboardInterrupt => false
  | _ => true
  end.

Definition M (A : Type) : Type := (exn + A)%type.

Definition ret {A : Type} (a : A) : M A := inr a.
Definition raise {A : Type} (e : exn) : M A := inl e.
Definition bind {A B : Type} (m : M A) (k : A -> M B) : M B :=
  match m with
  | inl e => inl e
  | inr a => k a
  end.

Notation "x <- m ;; k" := (bind m (fun x => k))
  (at level 61, m at next level, right associativity).

(** Python's [b1 and b2] on two tests: the second is evaluated only when the
    first is true. *)
Definition py_and (m1 m2 : M bool) : M bool :=
  b <- m1 ;; if b then m2 else ret false.

(** The f-string [f"...{e}"] of the two handlers: it calls [str(e)]. *)
Definition py_format (e : exn) : M unit :=
  match e with
  | Unprintable => raise TypeError
  | _ => ret tt
  end.

(** [try: body  except Exception as e: logging.error(f"...{e}"); return d] *)
Definition try_except {A : Type} (body : M A) (d : A) : M A :=
  match body with
  | inr a => ret a
  | inl e =>
      if is_Exception e then _ <- py_format e ;; ret d
      else raise e
  end.

(** ** Values, columns and the data frame *)

Inductive value : Type :=
| VNum (q : Q)
| VNaN
| VStr (s : String.string)
| VObj.

Inductive column : Type := High | Low.

Record DataFrame : Type := {
  df_index : list Z;
  df_High : option (list value);
  df_Low : option (list value)
}.

Inductive pyobj : Type :=
| PFrame (df : DataFrame)
| PNone
| PRaises (e : exn).

(** [len(df)] *)
Definition py_len (x : pyobj) : M nat :=
  match x with
  | PFrame df => ret (length (df_index df))
  | PNone => raise TypeError
  | PRaises e => raise e
  end.

(** [df['High']], [df['Low']] *)
Definition getitem (x : pyobj) (c : column) : M (list value) :=
  match x with
  | PFrame df =>
      match (match c with High => df_High df | Low => df_Low df end) with
      | Some col => ret col
      | None => raise KeyError
      end
  | PNone => raise TypeError
  | PRaises _ => raise TypeError
  end.

(** [col.iloc[j]] and [l[k]] at a position [j >= 0] *)
Definition iloc {A : Type} (col : list A) (j : nat) : M A :=
  match nth_error col j with
  | Some v => ret v
  | None => raise IndexError
  end.

(** [df.index[i]] *)
Definition index_at (x : pyobj) (i : nat) : M Z :=
  match x with
  | PFrame df => iloc (df_index df) i
  | PNone => raise AttributeError
  | PRaises _ => raise AttributeError
  end.

(** Comparison of two cells: [op] on two numbers, false when one side is a
    number and the other NaN or both are NaN, [sop] on two strings;
    anything else raises. *)
Definition py_cmp (op : Q -> Q -> bool)
  (sop : String.string -> String.string -> bool) (a b : value) : M bool :=
  match a, b with
  | VNum x, VNum y => ret (op x y)
  | VNum _, VNaN | VNaN, VNum _ | VNaN, VNaN => ret false
  | VStr x, VStr y => ret (sop x y)
  | _, _ => raise TypeError
  end.

Definition Qge_bool (x y : Q) : bool := Qle_bool y x.
Definition Qgt_bool (x y : Q) : bool := negb (Qle_bool x y).
Definition Qlt_bool (x y : Q) : bool := negb (Qle_bool y x).

Definition str_le (x y : String.string) : bool := String.leb x y.
Definition str_ge (x y : String.string) : bool := String.leb y x.
Definition str_lt (x y : String.string) : bool := String.ltb x y.
Definition str_gt (x y : String.string) : bool := String.ltb y x.

Definition py_ge : value -> value -> M bool := py_cmp Qge_bool str_ge.
Definition py_le : value -> value -> M bool := py_cmp Qle_bool str_le.
Definition py_gt : value -> value -> M bool := py_cmp Qgt_bool str_gt.
Definition py_lt : value -> value -> M bool := py_cmp Qlt_bool str_lt.

(** [range(lo, hi)] *)
Definition range (lo hi : nat) : list nat := seq lo (hi - lo).

(** [l[-2:]] *)
Definition last_two {A : Type} (l : list A) : list A :=
  skipn (length l - 2) l.

(** ** The analyzer *)

Record SMCAnalyzer : Type := { swing_length : nat }.

(** [__init__] *)
Definition init : SMCAnalyzer := {| swing_length := 5 |}.

Record SwingPoint : Type := {
  sp_index : nat;
  sp_price : value;
  sp_time : Z
}.

Inductive Trend : Type := BULLISH | BEARISH | NEUTRAL.

Record MarketStructure : Type := {
  trend : Trend;
  bos_detected : bool;
  choch_detected : bool
}.

Inductive SignalType : Type := BUY | SELL.

Record Signal : Type := {
  signal_type : SignalType;
  confidence : Q
}.

Definition Trend_eqb (t u : Trend) : bool :=
  match t, u with
  | BULLISH, BULLISH | BEARISH, BEARISH | NEUTRAL, NEUTRAL => true
  | _, _ => false
  end.

(** *** find_swing_highs / find_swing_lows

    The two methods are the same loop over a different column with a different
    disqualifying test ([>=] for highs, [<=] for lows). *)

Section SwingScan.
Variable self : SMCAnalyzer.
Variable df : pyobj.
Variable c : column.
Variable disq : value -> value -> M bool.

(** The inner loop: [true] is [is_swing_high] left untouched, [false] is the
    [break]. *)
Fixpoint window_scan (current : value) (i : nat) (js : list nat) : M bool :=
  match js with
  | [] => ret true
  | j :: js' =>
      if Nat.eqb j i then window_scan current i js'
      else
        col <- getitem df c ;;
        v <- iloc col j ;;
        hit <- disq v current ;;
        if hit then ret false else window_scan current i js'
  end.

(** The outer loop, with the list built so far. *)
Fixpoint swing_loop (cands : list nat) (acc : list SwingPoint)
  : M (list SwingPoint) :=
  match cands with
  | [] => ret acc
  | i :: cands' =>
      col <- getitem df c ;;
      current <- iloc col i ;;
      is_swing <- window_scan current i
                    (range (i - swing_length self) (i + swing_length self + 1)) ;;
      if is_swing then
        t <- index_at df i ;;
        swing_loop cands'
          (acc ++ [{| sp_index := i; sp_price := current; sp_time := t |}])
      else swing_loop cands' acc
  end.

Definition find_swing : M (list SwingPoint) :=
  n <- py_len df ;;
  swing_loop (range (swing_length self) (n - swing_length self)) [].
End SwingScan.

Definition find_swing_highs (self : SMCAnalyzer) (df : pyobj)
  : M (list SwingPoint) :=
  find_swing self df High py_ge.

Definition find_swing_lows (self : SMCAnalyzer) (df : pyobj)
  : M (list SwingPoint) :=
  find_swing self df Low py_le.

(** *** identify_market_structure *)

Definition neutral_structure : MarketStructure :=
  {| trend := NEUTRAL; bos_detected := false; choch_detected := false |}.

(** Lines 20-42: the structure dict and its update from the swing lists. *)
Definition structure_of_swings (swing_highs swing_lows : list SwingPoint)
  : M MarketStructure :=
  let structure := neutral_structure in
  if (2 <=? length swing_highs) && (2 <=? length swing_lows) then
    let recent_highs := last_two swing_highs in
    let recent_lows := last_two swing_lows in
    bullish <-
      py_and (h1 <- iloc recent_highs 1 ;; h0 <- iloc recent_highs 0 ;;
              py_gt (sp_price h1) (sp_price h0))
             (l1 <- iloc recent_lows 1 ;; l0 <- iloc recent_lows 0 ;;
              py_gt (sp_price l1) (sp_price l0)) ;;
    if bullish then
      ret {| trend := BULLISH; bos_detected := true;
             choch_detected := choch_detected structure |}
    else
      bearish <-
        py_and (h1 <- iloc recent_highs 1 ;; h0 <- iloc recent_highs 0 ;;
                py_lt (sp_price h1) (sp_price h0))
               (l1 <- iloc recent_lows 1 ;; l0 <- iloc recent_lows 0 ;;
                py_lt (sp_price l1) (sp_price l0)) ;;
      if bearish then
        ret {| trend := BEARISH; bos_detected := true;
               choch_detected := choch_detected structure |}
      else ret structure
  else ret structure.

(** The body of the [try]. *)
Definition market_structure_body (self : SMCAnalyzer) (df : pyobj)
  : M MarketStructure :=
  swing_highs <- find_swing_highs self df ;;
  swing_lows <- find_swing_lows self df ;;
  structure_of_swings swing_highs swing_lows.

(** [try: ... except Exception as e: log; return the neutral structure] *)
Definition identify_market_structure (self : SMCAnalyzer) (df : pyobj)
  : M MarketStructure :=
  try_except (market_structure_body self df)
    {| trend := NEUTRAL; bos_detected := false; choch_detected := false |}.

(** *** get_smc_signal *)

(** "Market structure bias": the first [if/elif] on the two tallies. *)
Definition score_trend (ms : MarketStructure) (s : Z * Z) : Z * Z :=
  let '(buy_score, sell_score) := s in
  match trend ms with
  | BULLISH => (buy_score + 3, sell_score)%Z
  | BEARISH => (buy_score, sell_score + 3)%Z
  | NEUTRAL => (buy_score, sell_score)
  end.

(** "BOS signals": the second [if], whose inner test is
    [trend == 'BULLISH'] with a bare [else]. *)
Definition score_bos (ms : MarketStructure) (s : Z * Z) : Z * Z :=
  let '(buy_score, sell_score) := s in
  if bos_detected ms then
    if Trend_eqb (trend ms) BULLISH then (buy_score + 4, sell_score)%Z
    else (buy_score, sell_score + 4)%Z
  else (buy_score, sell_score).

Definition smc_scores (ms : MarketStructure) : Z * Z :=
  score_bos ms (score_trend ms (0, 0)%Z).

(** [round(x)] of Python 3 on an exact value: nearest integer, ties to even. *)
Definition round_half_even (x : Q) : Z :=
  let f := Qfloor x in
  match (x - inject_Z f ?= 1 # 2)%Q with
  | Lt => f
  | Gt => (f + 1)%Z
  | Eq => if Z.even f then f else (f + 1)%Z
  end.

(** [round(x, 1)] *)
Definition py_round1 (x : Q) : Q :=
  (inject_Z (round_half_even (x * 10)) / 10)%Q.

(** The nearest double to a positive rational: the exponent [e] is chosen so
    that [a / 2^e] lies in [[2^52, 2^53)], and the 53-bit significand is
    rounded to the nearest integer, ties to even. *)
Definition pow2 (e : Z) : Q := Qpower 2 e.

Definition fl_pos (a : Q) : Q :=
  let e0 := (Z.log2 (Qnum a) - Z.log2 (Zpos (Qden a)) - 52)%Z in
  let e := if Qle_bool (pow2 52) (a / pow2 e0) then e0 else (e0 - 1)%Z in
  (inject_Z (round_half_even (a / pow2 e)) * pow2 e)%Q.

(** The nearest double to a rational. *)
Definition fl (x : Q) : Q :=
  match (x ?= 0)%Q with
  | Eq => 0%Q
  | Gt => fl_pos x
  | Lt => (- fl_pos (- x))%Q
  end.

(** [(a / total) * 100] on two ints: a true division, then a float product. *)
Definition share (a total : Z) : Q :=
  fl (fl (inject_Z a / inject_Z total) * 100).

(** "Determine signal" *)
Definition smc_decide (buy_score sell_score : Z) : option Signal :=
  let total_score := (buy_score + sell_score)%Z in
  if (total_score =? 0)%Z then None
  else if (sell_score <? buy_score)%Z && (3 <=? buy_score)%Z then
    let confidence := Qmin (share buy_score total_score) 95%Q in
    Some {| signal_type := BUY; confidence := py_round1 confidence |}
  else if (buy_score <? sell_score)%Z && (3 <=? sell_score)%Z then
    let confidence := Qmin (share sell_score total_score) 95%Q in
    Some {| signal_type := SELL; confidence := py_round1 confidence |}
  else None.

(** The scorer on a market structure: lines 98-132. *)
Definition smc_signal_of (ms : MarketStructure) : option Signal :=
  let '(buy_score, sell_score) := smc_scores ms in
  smc_decide buy_score sell_score.

(** The body of the [try].  A structure returned by
    [identify_market_structure] is a dict of three keys, which is never
    falsy, so [if not market_structure] is not taken. *)
Definition smc_signal_body (self : SMCAnalyzer) (df : pyobj)
  : M (option Signal) :=
  market_structure <- identify_market_structure self df ;;
  ret (smc_signal_of market_structure).

(** [try: ... except Exception as e: log; return None] *)
Definition get_smc_signal (self : SMCAnalyzer) (df : pyobj)
  : M (option Signal) :=
  try_except (smc_signal_body self df) None.

(** ** A price series of finite prices *)

Record Bar : Type := {
  high : Q;
  low : Q;
  timestamp : Z
}.

Definition PriceSeries : Type := list Bar.

Definition column_of (c : column) (s : PriceSeries) : list Q :=
  match c with
  | High => map high s
  | Low => map low s
  end.

(** The data frame that holds a price series. *)
Definition frame_of (s : PriceSeries) : pyobj :=
  PFrame {| df_index := map timestamp s;
            df_High := Some (map VNum (column_of High s));
            df_Low := Some (map VNum (column_of Low s)) |}.

Definition high_at (s : PriceSeries) (j : nat) : Q := nth j (column_of High s) 0%Q.
Definition low_at (s : PriceSeries) (j : nat) : Q := nth j (column_of Low s) 0%Q.

(** ** A price series whose prices may be NaN *)

Inductive price : Type :=
| Fin (q : Q)
| NaN.

Record FBar : Type := {
  fhigh : price;
  flow : price;
  ftimestamp : Z
}.

Definition FloatSeries : Type := list FBar.

Definition cell_of (x : price) : value :=
  match x with
  | Fin q => VNum q
  | NaN => VNaN
  end.

Definition fcolumn_of (c : column) (s : FloatSeries) : list price :=
  match c with
  | High => map fhigh s
  | Low => map flow s
  end.

Definition fframe_of (s : FloatSeries) : pyobj :=
  PFrame {| df_index := map ftimestamp s;
            df_High := Some (map cell_of (fcolumn_of High s));
            df_Low := Some (map cell_of (fcolumn_of Low s)) |}.

Definition fhigh_at (s : FloatSeries) (j : nat) : price :=
  nth j (fcolumn_of High s) NaN.
Definition flow_at (s : FloatSeries) (j : nat) : price :=
  nth j (fcolumn_of Low s) NaN.

(** [a <= b] and [a < b] on floats: false as soon as one side is NaN. *)
Definition price_le (a b : price) : Prop :=
  match a, b with
  | Fin x, Fin y => (x <= y)%Q
  | _, _ => False
  end.

Definition price_lt (a b : price) : Prop :=
  match a, b with
  | Fin x, Fin y => (x < y)%Q
  | _, _ => False
  end.

Definition is_number (v : value) : bool :=
  match v with
  | VNum _ => true
  | _ => false
  end.

(** ** Derived notions used in the statements *)

(** The exceptions the operations on a frame raise. *)
Definition ordinary (e : exn) : bool :=
  match e with
  | KeyError | IndexError | TypeError | AttributeError => true
  | _ => false
  end.

(** A frame, whatever its columns and cells, or [None]. *)
Definition is_data (df : pyobj) : bool :=
  match df with
  | PRaises _ => false
  | _ => true
  end.

(** What a comparison of two float cells returns. *)
Definition price_cmp (op : Q -> Q -> bool) (a b : price) : bool :=
  match a, b with
  | Fin x, Fin y => op x y
  | _, _ => false
  end.

(** The window test on a float column, and the positions that pass it. *)
Definition fwindow_clear (op : Q -> Q -> bool) (ps : list price) (w i : nat)
  : bool :=
  forallb (fun j => Nat.eqb j i
                    || negb (price_cmp op (nth j ps NaN) (nth i ps NaN)))
          (range (i - w) (i + w + 1)).

Definition fswing_positions (op : Q -> Q -> bool) (ps : list price) (w : nat)
  : list nat :=
  filter (fwindow_clear op ps w) (range w (length ps - w)).

Definition fpoint_at (c : column) (s : FloatSeries) (i : nat) : SwingPoint :=
  {| sp_index := i;
     sp_price := cell_of (nth i (fcolumn_of c s) NaN);
     sp_time := nth i (map ftimestamp s) 0%Z |}.


(** The test the inner loop computes at position [i], as a boolean: no other
    position of the window holds a disqualifying value. *)
Definition window_clear (op : Q -> Q -> bool) (qs : list Q) (w i : nat) : bool :=
  forallb (fun j => Nat.eqb j i || negb (op (nth j qs 0%Q) (nth i qs 0%Q)))
          (range (i - w) (i + w + 1)).

(** The swing point the outer loop appends at position [i]. *)
Definition point_at (c : column) (s : PriceSeries) (i : nat) : SwingPoint :=
  {| sp_index := i;
     sp_price := VNum (nth i (column_of c s) 0%Q);
     sp_time := nth i (map timestamp s) 0%Z |}.

(** Positions of the swing points of a column, in the order the loop visits
    them. *)
Definition swing_positions (op : Q -> Q -> bool) (qs : list Q) (w : nat)
  : list nat :=
  filter (window_clear op qs w) (range w (length qs - w)).

Definition bullish_structure : MarketStructure :=
  {| trend := BULLISH; bos_detected := true; choch_detected := false |}.

Definition bearish_structure : MarketStructure :=
  {| trend := BEARISH; bos_detected := true; choch_detected := false |}.

(** The outcome of the [if/elif] of [identify_market_structure] on the four
    prices it compares. *)
Definition classify_prices (h0 h1 l0 l1 : Q) : MarketStructure :=
  if Qgt_bool h1 h0 && Qgt_bool l1 l0 then bullish_structure
  else if Qlt_bool h1 h0 && Qlt_bool l1 l0 then bearish_structure
  else neutral_structure.

(** The structure read off two columns at the last two positions of two
    position lists. *)
Definition structure_at (hq lq : list Q) (hp lp : list nat) : MarketStructure :=
  match rev hp, rev lp with
  | i1 :: i0 :: _, k1 :: k0 :: _ =>
      classify_prices (nth i0 hq 0%Q) (nth i1 hq 0%Q)
                      (nth k0 lq 0%Q) (nth k1 lq 0%Q)
  | _, _ => neutral_structure
  end.

(** A series with every price sent through [f]. *)
Definition map_prices (f : Q -> Q) (s : PriceSeries) : PriceSeries :=
  map (fun b => {| high := f (high b); low := f (low b);
                   timestamp := timestamp b |}) s.





(** What a scan guarantees of a point it returns, on any input: its position
    was a candidate, its price is the cell of the column at that position,
    its time is the row label there, and the window test passed. *)
Definition well_placed (self : SMCAnalyzer) (df : pyobj) (c : column)
  (disq : value -> value -> M bool) (p : SwingPoint) : Prop :=
  (exists n, py_len df = ret n /\
             swing_length self <= sp_index p /\
             sp_index p + swing_length self < n) /\
  (exists col, getitem df c = ret col /\
               iloc col (sp_index p) = ret (sp_price p)) /\
  index_at df (sp_index p) = ret (sp_time p) /\
  window_scan df c disq (sp_price p) (sp_index p)
    (range (sp_index p - swing_length self)
           (sp_index p + swing_length self + 1)) = ret true.

(** A column that never falls, and one that never rises, from one bar to
    the next. *)
Definition non_decreasing (qs : list Q) : Prop :=
  forall j, j + 1 < length qs -> (nth j qs 0 <= nth (j + 1) qs 0)%Q.

Definition non_increasing (qs : list Q) : Prop :=
  forall j, j + 1 < length qs -> (nth (j + 1) qs 0 <= nth j qs 0)%Q.

(** ** Sample inputs *)

(** Eleven rows and no ['High'] column. *)
Definition frame_without_high : pyobj :=
  PFrame {| df_index := map Z.of_nat (seq 0 11);
            df_High := None;
            df_Low := Some (map (fun i => VNum (inject_Z (Z.of_nat i))) (seq 0 11)) |}.

(** A rising zig-zag of 29 bars: highs peak at positions 5 and 17, lows bottom
    at positions 11 and 23, each later extremum above the earlier one. *)
Definition uptrend_highs : list Z :=
  [100; 102; 104; 106; 108; 110; 109; 108; 107; 106; 105; 104; 106; 108; 110;
   112; 114; 116; 115; 114; 113; 112; 111; 110; 112; 114; 116; 118; 120]%Z.

Definition bar_at (t : nat) (h : Z) : Bar :=
  {| high := inject_Z h; low := inject_Z (h - 1); timestamp := Z.of_nat t |}.

Fixpoint bars_from (t : nat) (hs : list Z) : PriceSeries :=
  match hs with
  | [] => []
  | h :: hs' => bar_at t h :: bars_from (S t) hs'
  end.

Definition uptrend : PriceSeries := bars_from 0 uptrend_highs.

(** The first ten bars of the zig-zag: one short of a full window at the
    default [swing_length]. *)
Definition short_frame : DataFrame :=
  {| df_index := map timestamp (firstn 10 uptrend);
     df_High := Some (map VNum (column_of High (firstn 10 uptrend)));
     df_Low := Some (map VNum (column_of Low (firstn 10 uptrend))) |}.

(** Seventeen bars with an outside bar at positions 5 and 11: each is both a
    swing high and a swing low, the later one higher on both sides. *)
Definition spikes : PriceSeries :=
  map (fun t =>
         {| high := if Nat.eqb t 5 then 20 else if Nat.eqb t 11 then 30 else 10;
            low := if Nat.eqb t 5 then 1 else if Nat.eqb t 11 then 2 else 5;
            timestamp := Z.of_nat t |}%Q)
      (seq 0 17).

(** A series of finite prices with the high at position [k] replaced by
    NaN. *)
Definition with_nan_high (k : nat) (s : PriceSeries) : FloatSeries :=
  map (fun tb : nat * Bar =>
         {| fhigh := if Nat.eqb (fst tb) k then NaN else Fin (high (snd tb));
            flow := Fin (low (snd tb));
            ftimestamp := timestamp (snd tb) |})
      (combine (seq 0 (length s)) s).

(** The zig-zag with a NaN high next to its first peak. *)
Definition nan_series : FloatSeries := with_nan_high 6 uptrend.

(** Twenty bars, each one unit above the one before. *)
Definition staircase : PriceSeries :=
  map (fun t => {| high := inject_Z (Z.of_nat t) + 1;
                   low := inject_Z (Z.of_nat t);
                   timestamp := Z.of_nat t |}%Q) (seq 0 20).

(** ** The loops on a price series *)

Lemma bind_ret {A B : Type} (a : A) (k : A -> M B) : bind (ret a) k = k a.
Proof. reflexivity. Qed.

Lemma column_of_length c s : length (column_of c s) = length s.
Proof. destruct c; apply length_map. Qed.

Lemma getitem_frame_of c s :
  getitem (frame_of s) c = ret (map VNum (column_of c s)).
Proof. destruct c; reflexivity. Qed.

Lemma iloc_map {A B : Type} (f : A -> B) (l : list A) (d : A) (j : nat) :
  j < length l -> iloc (map f l) j = ret (f (nth j l d)).
Proof.
  intros Hj. unfold iloc.
  rewrite nth_error_map, (nth_error_nth' l d Hj). reflexivity.
Qed.

Lemma index_at_frame_of s i :
  i < length s -> index_at (frame_of s) i = ret (nth i (map timestamp s) 0%Z).
Proof.
  intros Hi. unfold index_at, frame_of, iloc. cbn [df_index].
  rewrite (nth_error_nth' _ 0%Z); [reflexivity | now rewrite length_map].
Qed.

Lemma range_In lo hi i : In i (range lo hi) <-> lo <= i < hi.
Proof. unfold range. rewrite in_seq. lia. Qed.

Section OnSeries.
Variable self : SMCAnalyzer.
Variable s : PriceSeries.
Variable c : column.
Variable op : Q -> Q -> bool.
Variable sop : String.string -> String.string -> bool.

Let W := swing_length self.
Let qs := column_of c s.

Lemma window_scan_series q i js :
  (forall j, In j js -> j < length s) ->
  window_scan (frame_of s) c (py_cmp op sop) (VNum q) i js
  = ret (forallb (fun j => Nat.eqb j i || negb (op (nth j qs 0%Q) q)) js).
Proof.
  induction js as [|j js IH]; intros Hb; [reflexivity|].
  cbn [window_scan forallb].
  destruct (Nat.eqb j i) eqn:E.
  - cbn [orb andb]. apply IH. intros k Hk. apply Hb. now right.
  - rewrite getitem_frame_of, bind_ret.
    rewrite (iloc_map VNum _ 0%Q), bind_ret
      by (rewrite column_of_length; apply Hb; now left).
    cbn [py_cmp]. rewrite bind_ret. fold qs.
    destruct (op (nth j qs 0%Q) q); cbn [orb negb andb]; [reflexivity|].
    apply IH. intros k Hk. apply Hb. now right.
Qed.

Lemma swing_loop_series cands acc :
  (forall i, In i cands -> i + W < length s) ->
  swing_loop self (frame_of s) c (py_cmp op sop) cands acc
  = ret (acc ++ map (point_at c s) (filter (window_clear op qs W) cands)).
Proof.
  revert acc. induction cands as [|i cands IH]; intros acc Hb.
  - cbn. now rewrite app_nil_r.
  - assert (Hi : i + W < length s) by (apply Hb; now left).
    assert (Hrest : forall k, In k cands -> k + W < length s)
      by (intros k Hk; apply Hb; now right).
    cbn [swing_loop filter].
    rewrite getitem_frame_of, bind_ret.
    rewrite (iloc_map VNum _ 0%Q), bind_ret
      by (rewrite column_of_length; lia).
    rewrite window_scan_series, bind_ret
      by (intros j Hj; apply range_In in Hj; fold W in Hj; lia).
    fold W qs. change (forallb _ _) with (window_clear op qs W i).
    destruct (window_clear op qs W i).
    + rewrite index_at_frame_of, bind_ret by lia.
      rewrite IH by exact Hrest.
      cbn [map]. rewrite <- app_assoc. reflexivity.
    + now apply IH.
Qed.

Lemma find_swing_series :
  find_swing self (frame_of s) c (py_cmp op sop)
  = ret (map (point_at c s)
           (filter (window_clear op qs W) (range W (length s - W)))).
Proof.
  unfold find_swing. cbn [py_len frame_of df_index].
  rewrite length_map, bind_ret. fold W.
  rewrite swing_loop_series; [reflexivity|].
  intros i Hi. apply range_In in Hi. lia.
Qed.
End OnSeries.

(** ** Facts on the window test and on candidate positions *)

Lemma window_clear_iff op qs w i :
  window_clear op qs w i = true <->
  forall j, i - w <= j <= i + w -> j <> i ->
            op (nth j qs 0%Q) (nth i qs 0%Q) = false.
Proof.
  unfold window_clear. rewrite forallb_forall. split.
  - intros H j Hj Hne.
    assert (Hin : In j (range (i - w) (i + w + 1))) by (apply range_In; lia).
    apply H in Hin. apply orb_true_iff in Hin. destruct Hin as [E|E].
    + apply Nat.eqb_eq in E. contradiction.
    + now apply negb_true_iff in E.
  - intros H j Hin. apply range_In in Hin.
    destruct (Nat.eqb j i) eqn:E; [reflexivity|].
    apply Nat.eqb_neq in E. cbn [orb]. apply negb_true_iff. apply H; [lia|exact E].
Qed.

Lemma Qge_bool_false x y : Qge_bool x y = false <-> (x < y)%Q.
Proof.
  unfold Qge_bool. split.
  - intros E. apply Qnot_le_lt. intros Hle.
    apply Qle_bool_iff in Hle. congruence.
  - intros Hlt. destruct (Qle_bool y x) eqn:E; [|reflexivity].
    apply Qle_bool_iff in E. exfalso. exact (Qlt_not_le _ _ Hlt E).
Qed.

Lemma Qle_bool_false x y : Qle_bool x y = false <-> (y < x)%Q.
Proof. exact (Qge_bool_false y x). Qed.



Lemma map_index_point_at c s l : map sp_index (map (point_at c s) l) = l.
Proof.
  induction l as [|i l IH]; [reflexivity|]. cbn [map point_at sp_index].
  now rewrite IH.
Qed.

Lemma seq_StronglySorted a n : StronglySorted lt (seq a n).
Proof.
  revert a. induction n as [|n IH]; intros a; cbn [seq]; constructor.
  - apply IH.
  - apply Forall_forall. intros k Hk. apply in_seq in Hk. lia.
Qed.

Lemma filter_StronglySorted {A : Type} (R : A -> A -> Prop) f l :
  StronglySorted R l -> StronglySorted R (filter f l).
Proof.
  induction 1 as [|a l Hs IH Hall]; cbn [filter]; [constructor|].
  destruct (f a); [|exact IH].
  constructor; [exact IH|].
  rewrite Forall_forall in *. intros x Hx. apply filter_In in Hx.
  now apply Hall.
Qed.

Lemma find_swing_positions self s c op sop :
  find_swing self (frame_of s) c (py_cmp op sop)
  = ret (map (point_at c s)
           (swing_positions op (column_of c s) (swing_length self))).
Proof.
  rewrite find_swing_series. unfold swing_positions.
  now rewrite column_of_length.
Qed.

Lemma swing_positions_In op qs w i :
  In i (swing_positions op qs w) <->
  (Z.of_nat w <= Z.of_nat i <= Z.of_nat (length qs) - Z.of_nat w - 1)%Z /\
  forall j, i - w <= j <= i + w -> j <> i ->
            op (nth j qs 0%Q) (nth i qs 0%Q) = false.
Proof.
  unfold swing_positions. rewrite filter_In, range_In, window_clear_iff.
  split; intros [Hr Hw]; (split; [lia | exact Hw]).
Qed.

Lemma swing_positions_sorted op qs w :
  StronglySorted lt (swing_positions op qs w).
Proof. apply filter_StronglySorted, seq_StronglySorted. Qed.

(** Two positions of the result lie more than a window half-width apart, as
    soon as the disqualifying test holds of every pair in one direction at
    least (as [>=] and [<=] do). *)
Lemma swing_positions_apart op qs w i k :
  (forall x y, op x y = false -> op y x = false -> False) ->
  In i (swing_positions op qs w) -> In k (swing_positions op qs w) ->
  i <> k -> i + w + 1 <= k \/ k + w + 1 <= i.
Proof.
  intros Hanti Hi Hk Hne.
  apply swing_positions_In in Hi, Hk.
  destruct Hi as [Hri Hwi], Hk as [Hrk Hwk].
  destruct (Nat.le_gt_cases (i + w + 1) k) as [|H1]; [now left|].
  destruct (Nat.le_gt_cases (k + w + 1) i) as [|H2]; [now right|].
  exfalso. apply (Hanti (nth k qs 0%Q) (nth i qs 0%Q)).
  - apply Hwi; lia.
  - apply Hwk; lia.
Qed.

(** ** Swing point detection *)

(** On a series of finite prices of length [n], [find_swing_highs] returns a
    swing point at position [i] exactly when
    [swing_length <= i <= n - swing_length - 1] and [high[j] < high[i]] for
    every other [j] of [[i - swing_length, i + swing_length]];
    [find_swing_lows] does the same with [low[i] < low[j]]; each point carries
    the price and the row label of its position, and both results are in
    ascending position order. *)
Lemma find_swing_points_finite (self : SMCAnalyzer) (s : PriceSeries) :
  exists hs ls,
    find_swing_highs self (frame_of s) = ret hs /\
    find_swing_lows self (frame_of s) = ret ls /\
    (forall i, In i (map sp_index hs) <->
       (Z.of_nat (swing_length self) <= Z.of_nat i
        <= Z.of_nat (length s) - Z.of_nat (swing_length self) - 1)%Z /\
       forall j, i - swing_length self <= j <= i + swing_length self ->
                 j <> i -> (high_at s j < high_at s i)%Q) /\
    (forall i, In i (map sp_index ls) <->
       (Z.of_nat (swing_length self) <= Z.of_nat i
        <= Z.of_nat (length s) - Z.of_nat (swing_length self) - 1)%Z /\
       forall j, i - swing_length self <= j <= i + swing_length self ->
                 j <> i -> (low_at s i < low_at s j)%Q) /\
    hs = map (point_at High s) (map sp_index hs) /\
    ls = map (point_at Low s) (map sp_index ls) /\
    StronglySorted lt (map sp_index hs) /\
    StronglySorted lt (map sp_index ls).
Proof.
  exists (map (point_at High s)
            (swing_positions Qge_bool (column_of High s) (swing_length self))).
  exists (map (point_at Low s)
            (swing_positions Qle_bool (column_of Low s) (swing_length self))).
  split; [apply find_swing_positions|].
  split; [apply find_swing_positions|].
  rewrite !map_index_point_at.
  split; [|split; [|split; [reflexivity|split; [reflexivity|]]]].
  - intros i. rewrite swing_positions_In, column_of_length.
    split; intros [Hr Hw]; (split; [exact Hr|]); intros j Hj Hne;
      apply Qge_bool_false, Hw; assumption.
  - intros i. rewrite swing_positions_In, column_of_length.
    split; intros [Hr Hw]; (split; [exact Hr|]); intros j Hj Hne;
      apply Qle_bool_false, Hw; assumption.
  - split; apply swing_positions_sorted.
Qed.

(** C8: a frame with fewer than [2 * swing_length + 1] rows, and so every price
    series that short, has no swing high and no swing low: both loops run over
    an empty range. *)
Theorem find_swing_short (self : SMCAnalyzer) (df : DataFrame) :
  length (df_index df) < 2 * swing_length self + 1 ->
  find_swing_highs self (PFrame df) = ret [] /\
  find_swing_lows self (PFrame df) = ret [].
Proof.
  intros Hshort.
  unfold find_swing_highs, find_swing_lows, find_swing, range.
  cbn [py_len]. rewrite !bind_ret.
  replace (length (df_index df) - swing_length self - swing_length self)
    with 0 by lia.
  split; reflexivity.
Qed.

Lemma find_swing_short_witness :
  length (df_index short_frame) < 2 * swing_length init + 1 /\
  find_swing_highs init (PFrame short_frame) = ret [] /\
  find_swing_lows init (PFrame short_frame) = ret [].
Proof.
  split; [cbn; lia|]. apply (find_swing_short init short_frame). cbn. lia.
Defined.

(** Scenario A: eleven bars whose high at position 5 is the one maximum give
    one swing high, at position 5. *)
Lemma eleven_bars_one_swing_high :
  find_swing_highs init (frame_of (firstn 11 uptrend))
  = ret [point_at High uptrend 5].
Proof. vm_compute. reflexivity. Qed.

(** On a series of finite prices, two distinct swing highs lie at positions
    at least [swing_length + 1] apart, and so do two distinct swing lows. *)
Lemma swing_points_apart_finite (self : SMCAnalyzer) (s : PriceSeries) :
  exists hs ls,
    find_swing_highs self (frame_of s) = ret hs /\
    find_swing_lows self (frame_of s) = ret ls /\
    (forall p q, In p hs -> In q hs -> p <> q ->
       sp_index p + (swing_length self + 1) <= sp_index q \/
       sp_index q + (swing_length self + 1) <= sp_index p) /\
    (forall p q, In p ls -> In q ls -> p <> q ->
       sp_index p + (swing_length self + 1) <= sp_index q \/
       sp_index q + (swing_length self + 1) <= sp_index p).
Proof.
  exists (map (point_at High s)
            (swing_positions Qge_bool (column_of High s) (swing_length self))).
  exists (map (point_at Low s)
            (swing_positions Qle_bool (column_of Low s) (swing_length self))).
  split; [apply find_swing_positions|].
  split; [apply find_swing_positions|].
  split; intros p q Hp Hq Hne;
    apply in_map_iff in Hp; destruct Hp as (i & <- & Hi);
    apply in_map_iff in Hq; destruct Hq as (k & <- & Hk);
    cbn [point_at sp_index];
    assert (Hik : i <> k) by congruence.
  - destruct (swing_positions_apart Qge_bool (column_of High s)
                (swing_length self) i k) as [H|H];
      try assumption; [|lia|lia].
    intros x y Hx Hy. apply Qge_bool_false in Hx, Hy.
    exact (Qlt_irrefl x (Qlt_trans _ _ _ Hx Hy)).
  - destruct (swing_positions_apart Qle_bool (column_of Low s)
                (swing_length self) i k) as [H|H];
      try assumption; [|lia|lia].
    intros x y Hx Hy. apply Qle_bool_false in Hx, Hy.
    exact (Qlt_irrefl x (Qlt_trans _ _ _ Hy Hx)).
Qed.

(** ** Market structure *)

Lemma structure_of_swings_cases hs ls ms :
  structure_of_swings hs ls = ret ms ->
  ms = neutral_structure \/ ms = bullish_structure \/ ms = bearish_structure.
Proof.
  unfold structure_of_swings.
  destruct ((2 <=? length hs) && (2 <=? length ls)).
  - destruct (py_and _ _) as [e|[|]]; cbn [bind].
    + discriminate.
    + intros [= <-]. right. now left.
    + destruct (py_and _ _) as [e|[|]]; cbn [bind].
      * discriminate.
      * intros [= <-]. right. now right.
      * intros [= <-]. now left.
  - intros [= <-]. now left.
Qed.

Lemma try_except_ret {A : Type} (body : M A) (d a : A) :
  body = ret a -> try_except body d = ret a.
Proof. intros ->. reflexivity. Qed.

Lemma try_except_raise {A : Type} (body : M A) (d : A) (e : exn) :
  body = raise e ->
  try_except body d
  = if is_Exception e then _ <- py_format e ;; ret d else raise e.
Proof. intros ->. reflexivity. Qed.

Lemma try_except_cases {A : Type} (body : M A) (d r : A) :
  try_except body d = ret r ->
  body = ret r \/ exists e, body = raise e /\ r = d.
Proof.
  unfold try_except. destruct body as [e|a].
  - destruct (is_Exception e); [|discriminate].
    destruct (py_format e); cbn [bind]; [discriminate|].
    intros [= <-]. right. now exists e.
  - intros [= <-]. now left.
Qed.

Lemma identify_market_structure_cases self df ms :
  identify_market_structure self df = ret ms ->
  ms = neutral_structure \/ ms = bullish_structure \/ ms = bearish_structure.
Proof.
  intros H. apply try_except_cases in H. destruct H as [H|(e & _ & ->)].
  - unfold market_structure_body in H.
    destruct (find_swing_highs self df) as [e|hs]; cbn [bind] in H;
      [discriminate|].
    destruct (find_swing_lows self df) as [e|ls]; cbn [bind] in H;
      [discriminate|].
    exact (structure_of_swings_cases hs ls ms H).
  - now left.
Qed.

Lemma structure_of_swings_few hs ls :
  length hs < 2 \/ length ls < 2 ->
  structure_of_swings hs ls = ret neutral_structure.
Proof.
  intros H. unfold structure_of_swings.
  replace ((2 <=? length hs) && (2 <=? length ls)) with false; [reflexivity|].
  symmetry. apply andb_false_iff.
  destruct H; [left|right]; apply Nat.leb_gt; assumption.
Qed.

Lemma last_two_app {A : Type} (l : list A) (a b : A) :
  last_two (l ++ [a; b]) = [a; b].
Proof.
  unfold last_two. rewrite length_app. cbn [length].
  replace (length l + 2 - 2) with (length l + 0) by lia.
  rewrite skipn_app, Nat.add_0_r, skipn_all.
  replace (length l - length l) with 0 by lia. reflexivity.
Qed.

Lemma structure_of_swings_recent hs' H0 H1 ls' L0 L1 h0 h1 l0 l1 :
  sp_price H0 = VNum h0 -> sp_price H1 = VNum h1 ->
  sp_price L0 = VNum l0 -> sp_price L1 = VNum l1 ->
  structure_of_swings (hs' ++ [H0; H1]) (ls' ++ [L0; L1])
  = ret (if Qgt_bool h1 h0 && Qgt_bool l1 l0 then bullish_structure
         else if Qlt_bool h1 h0 && Qlt_bool l1 l0 then bearish_structure
         else neutral_structure).
Proof.
  intros E0 E1 F0 F1. unfold structure_of_swings.
  replace ((2 <=? length (hs' ++ [H0; H1])) && (2 <=? length (ls' ++ [L0; L1])))
    with true
    by (symmetry; apply andb_true_iff; split; apply Nat.leb_le;
        rewrite length_app; cbn [length]; lia).
  rewrite !last_two_app. cbn [iloc nth_error]. rewrite !bind_ret.
  rewrite E0, E1, F0, F1. unfold py_and, py_gt, py_lt. cbn [py_cmp].
  rewrite !bind_ret.
  destruct (Qgt_bool h1 h0); cbn [andb].
  - rewrite bind_ret. destruct (Qgt_bool l1 l0); [reflexivity|].
    destruct (Qlt_bool h1 h0); cbn [andb]; rewrite bind_ret;
      [destruct (Qlt_bool l1 l0)|]; reflexivity.
  - rewrite bind_ret.
    destruct (Qlt_bool h1 h0); cbn [andb]; rewrite bind_ret;
      [destruct (Qlt_bool l1 l0)|]; reflexivity.
Qed.



(** *** Which exceptions the body can raise *)

Lemma bind_raise {A B : Type} (m : M A) (k : A -> M B) (e : exn) :
  bind m k = raise e ->
  m = raise e \/ exists a, m = ret a /\ k a = raise e.
Proof.
  destruct m as [e'|a]; cbn [bind]; intros H.
  - left. injection H as <-. reflexivity.
  - right. now exists a.
Qed.

Lemma ordinary_caught {A : Type} (body : M A) (d : A) (e : exn) :
  body = raise e -> ordinary e = true -> try_except body d = ret d.
Proof. intros -> H. destruct e; try discriminate H; reflexivity. Qed.

Lemma getitem_ordinary df c e : getitem df c = raise e -> ordinary e = true.
Proof.
  destruct df as [d| |e']; cbn [getitem].
  - destruct (match c with High => df_High d | Low => df_Low d end);
      intros [= <-]; reflexivity.
  - intros [= <-]; reflexivity.
  - intros [= <-]; reflexivity.
Qed.

Lemma iloc_ordinary {A : Type} (l : list A) j e :
  iloc l j = raise e -> ordinary e = true.
Proof.
  unfold iloc. destruct (nth_error l j); intros [= <-]; reflexivity.
Qed.

Lemma index_at_ordinary df i e : index_at df i = raise e -> ordinary e = true.
Proof.
  destruct df as [d| |e']; cbn [index_at].
  - apply iloc_ordinary.
  - intros [= <-]; reflexivity.
  - intros [= <-]; reflexivity.
Qed.

Lemma py_cmp_ordinary op sop a b e :
  py_cmp op sop a b = raise e -> ordinary e = true.
Proof. destruct a, b; cbn [py_cmp]; intros [= <-]; reflexivity. Qed.

Lemma window_scan_ordinary df c op sop cur i js e :
  window_scan df c (py_cmp op sop) cur i js = raise e -> ordinary e = true.
Proof.
  induction js as [|j js IH]; cbn [window_scan]; [discriminate|].
  destruct (Nat.eqb j i); [exact IH|]. intros H.
  apply bind_raise in H. destruct H as [H|(col & _ & H)];
    [exact (getitem_ordinary _ _ _ H)|].
  apply bind_raise in H. destruct H as [H|(v & _ & H)];
    [exact (iloc_ordinary _ _ _ H)|].
  apply bind_raise in H. destruct H as [H|(hit & _ & H)];
    [exact (py_cmp_ordinary _ _ _ _ _ H)|].
  destruct hit; [discriminate H | exact (IH H)].
Qed.

Lemma swing_loop_ordinary self df c op sop cands :
  forall acc e,
    swing_loop self df c (py_cmp op sop) cands acc = raise e ->
    ordinary e = true.
Proof.
  induction cands as [|i cands IH]; intros acc e; cbn [swing_loop];
    [discriminate|].
  intros H.
  apply bind_raise in H. destruct H as [H|(col & _ & H)];
    [exact (getitem_ordinary _ _ _ H)|].
  apply bind_raise in H. destruct H as [H|(cur & _ & H)];
    [exact (iloc_ordinary _ _ _ H)|].
  apply bind_raise in H. destruct H as [H|(ok & _ & H)];
    [exact (window_scan_ordinary _ _ _ _ _ _ _ _ H)|].
  destruct ok; [|exact (IH _ _ H)].
  apply bind_raise in H. destruct H as [H|(t & _ & H)];
    [exact (index_at_ordinary _ _ _ H) | exact (IH _ _ H)].
Qed.

Lemma find_swing_ordinary self df c op sop e :
  is_data df = true ->
  find_swing self df c (py_cmp op sop) = raise e -> ordinary e = true.
Proof.
  intros Hd H. unfold find_swing in H.
  apply bind_raise in H. destruct H as [H|(n & _ & H)].
  - destruct df as [d| |e']; cbn [py_len] in H;
      [discriminate H | injection H as <-; reflexivity | discriminate Hd].
  - exact (swing_loop_ordinary _ _ _ _ _ _ _ _ H).
Qed.

Lemma py_and_ordinary m1 m2 e :
  (forall e', m1 = raise e' -> ordinary e' = true) ->
  (forall e', m2 = raise e' -> ordinary e' = true) ->
  py_and m1 m2 = raise e -> ordinary e = true.
Proof.
  intros H1 H2 H. unfold py_and in H.
  apply bind_raise in H. destruct H as [H|(b & _ & H)]; [now apply H1|].
  destruct b; [now apply H2 | discriminate H].
Qed.

Lemma compare_prices_ordinary (l : list SwingPoint)
  (cmp : value -> value -> M bool) e :
  (forall a b e', cmp a b = raise e' -> ordinary e' = true) ->
  (p1 <- iloc l 1 ;; p0 <- iloc l 0 ;; cmp (sp_price p1) (sp_price p0))
  = raise e ->
  ordinary e = true.
Proof.
  intros Hc H.
  apply bind_raise in H. destruct H as [H|(p1 & _ & H)];
    [exact (iloc_ordinary _ _ _ H)|].
  apply bind_raise in H. destruct H as [H|(p0 & _ & H)];
    [exact (iloc_ordinary _ _ _ H) | exact (Hc _ _ _ H)].
Qed.

Lemma structure_of_swings_ordinary hs ls e :
  structure_of_swings hs ls = raise e -> ordinary e = true.
Proof.
  unfold structure_of_swings.
  destruct ((2 <=? length hs) && (2 <=? length ls)); [|discriminate].
  intros H.
  apply bind_raise in H. destruct H as [H|(bullish & _ & H)].
  - apply py_and_ordinary in H; [exact H| |];
      intros e' H'; apply compare_prices_ordinary in H'; try exact H';
      intros a b e''; apply py_cmp_ordinary.
  - destruct bullish; [discriminate H|].
    apply bind_raise in H. destruct H as [H|(bearish & _ & H)].
    + apply py_and_ordinary in H; [exact H| |];
        intros e' H'; apply compare_prices_ordinary in H'; try exact H';
        intros a b e''; apply py_cmp_ordinary.
    + destruct bearish; discriminate H.
Qed.

Lemma market_structure_body_ordinary self df e :
  is_data df = true ->
  market_structure_body self df = raise e -> ordinary e = true.
Proof.
  intros Hd H. unfold market_structure_body in H.
  apply bind_raise in H. destruct H as [H|(hs & _ & H)];
    [exact (find_swing_ordinary _ _ _ _ _ _ Hd H)|].
  apply bind_raise in H. destruct H as [H|(ls & _ & H)];
    [exact (find_swing_ordinary _ _ _ _ _ _ Hd H)|].
  exact (structure_of_swings_ordinary _ _ _ H).
Qed.

Lemma identify_returns self df :
  is_data df = true -> exists ms, identify_market_structure self df = ret ms.
Proof.
  intros Hd. unfold identify_market_structure.
  destruct (market_structure_body self df) as [e|ms] eqn:E.
  - eexists. apply (ordinary_caught _ _ e); [reflexivity|].
    exact (market_structure_body_ordinary self df e Hd E).
  - now exists ms.
Qed.

Lemma get_smc_signal_of self df ms :
  identify_market_structure self df = ret ms ->
  get_smc_signal self df = ret (smc_signal_of ms).
Proof.
  intros E. unfold get_smc_signal, smc_signal_body. now rewrite E.
Qed.

Lemma get_smc_signal_returns self df :
  is_data df = true -> exists r, get_smc_signal self df = ret r.
Proof.
  intros Hd. destruct (identify_returns self df Hd) as [ms E].
  eexists. exact (get_smc_signal_of self df ms E).
Qed.


(** C5: on every frame, whatever its columns and cells, a structure is
    returned; and whatever the input, a structure returned has [bos_detected]
    true exactly when its trend is bullish or bearish, and false exactly when
    it is neutral. *)
Theorem bos_iff_trending (self : SMCAnalyzer) (df : pyobj) :
  (is_data df = true ->
   exists ms, identify_market_structure self df = ret ms) /\
  (forall ms, identify_market_structure self df = ret ms ->
     (bos_detected ms = true <-> trend ms = BULLISH \/ trend ms = BEARISH) /\
     (bos_detected ms = false <-> trend ms = NEUTRAL)).
Proof.
  split; [apply identify_returns|]. intros ms H.
  destruct (identify_market_structure_cases self df ms H) as [->|[->| ->]];
    cbn; intuition congruence.
Qed.

(** C9: on every frame, whatever its columns and cells, a structure is
    returned; and whatever the input, a structure returned has
    [choch_detected] false: on the neutral path, on both trending paths and
    on the error path. *)
Theorem choch_never_detected (self : SMCAnalyzer) (df : pyobj) :
  (is_data df = true ->
   exists ms, identify_market_structure self df = ret ms) /\
  (forall ms, identify_market_structure self df = ret ms ->
              choch_detected ms = false) /\
  (forall e ms, market_structure_body self df = raise e ->
                identify_market_structure self df = ret ms ->
                choch_detected ms = false) /\
  (forall hs ls ms, structure_of_swings hs ls = ret ms ->
                    choch_detected ms = false).
Proof.
  split; [apply identify_returns|]. split; [|split].
  - intros ms H.
    destruct (identify_market_structure_cases self df ms H) as [->|[->| ->]];
      reflexivity.
  - intros e ms _ H.
    destruct (identify_market_structure_cases self df ms H) as [->|[->| ->]];
      reflexivity.
  - intros hs ls ms E.
    destruct (structure_of_swings_cases hs ls ms E) as [->|[->| ->]];
      reflexivity.
Qed.

(** ** Errors *)

Lemma missing_column_raises self df :
  2 * swing_length self + 1 <= length (df_index df) ->
  df_High df = None ->
  market_structure_body self (PFrame df) = raise KeyError.
Proof.
  intros Hlen Hnone.
  unfold market_structure_body, find_swing_highs, find_swing, range.
  cbn [py_len]. rewrite bind_ret.
  destruct (length (df_index df) - swing_length self - swing_length self)
    as [|m] eqn:E; [lia|].
  cbn [seq swing_loop getitem]. rewrite Hnone. reflexivity.
Qed.

(** C4, as the code has it: an exception raised in the body of either method
    is caught when it is an [Exception]; the method then returns its default
    (the neutral structure with both flags false, no signal) provided the
    exception can be formatted for the log.  So on every frame, whatever its
    columns and cells, and on [None], both methods return.  An exception that
    is not an [Exception] leaves both methods, and one that cannot be
    formatted makes [identify_market_structure] raise what the formatting
    raised. *)
Theorem exceptions_are_caught (self : SMCAnalyzer) (df : pyobj) :
  (forall e, market_structure_body self df = raise e ->
     is_Exception e = true -> py_format e = ret tt ->
     identify_market_structure self df
     = ret {| trend := NEUTRAL; bos_detected := false;
              choch_detected := false |} /\
     get_smc_signal self df = ret None) /\
  (forall e, smc_signal_body self df = raise e ->
     is_Exception e = true -> py_format e = ret tt ->
     get_smc_signal self df = ret None) /\
  (is_data df = true ->
   (exists ms, identify_market_structure self df = ret ms) /\
   (exists r, get_smc_signal self df = ret r)) /\
  (forall e, market_structure_body self df = raise e ->
     is_Exception e = false ->
     identify_market_structure self df = raise e /\
     get_smc_signal self df = raise e) /\
  (forall e e', market_structure_body self df = raise e ->
     is_Exception e = true -> py_format e = raise e' ->
     identify_market_structure self df = raise e').
Proof.
  split; [|split; [|split; [|split]]].
  - intros e E He Hf.
    assert (Hms : identify_market_structure self df = ret neutral_structure).
    { unfold identify_market_structure.
      rewrite (try_except_raise _ _ _ E), He, Hf. reflexivity. }
    split; [exact Hms|]. now rewrite (get_smc_signal_of self df _ Hms).
  - intros e E He Hf. unfold get_smc_signal.
    rewrite (try_except_raise _ _ _ E), He, Hf. reflexivity.
  - intros Hd. split; [now apply identify_returns|].
    now apply get_smc_signal_returns.
  - intros e E He.
    assert (Hms : identify_market_structure self df = raise e).
    { unfold identify_market_structure.
      rewrite (try_except_raise _ _ _ E), He. reflexivity. }
    split; [exact Hms|].
    assert (Hb : smc_signal_body self df = raise e)
      by (unfold smc_signal_body; now rewrite Hms).
    unfold get_smc_signal. rewrite (try_except_raise _ _ _ Hb), He.
    reflexivity.
  - intros e e' E He Hf. unfold identify_market_structure.
    rewrite (try_except_raise _ _ _ E), He, Hf. reflexivity.
Qed.

Lemma exceptions_are_caught_witness :
  market_structure_body init frame_without_high = raise KeyError /\
  identify_market_structure init frame_without_high = ret neutral_structure /\
  get_smc_signal init frame_without_high = ret None /\
  smc_signal_body init (PRaises Unprintable) = raise TypeError /\
  get_smc_signal init (PRaises Unprintable) = ret None /\
  (exists ms, identify_market_structure init PNone = ret ms) /\
  (exists r, get_smc_signal init PNone = ret r).
Proof.
  destruct (exceptions_are_caught init frame_without_high) as (H1 & _).
  destruct (exceptions_are_caught init (PRaises Unprintable)) as (_ & H2 & _).
  destruct (exceptions_are_caught init PNone) as (_ & _ & H3 & _).
  destruct (H1 KeyError) as [Hi Hg]; try reflexivity.
  destruct (H3 eq_refl) as [Hi' Hg'].
  pose proof (H2 TypeError eq_refl eq_refl eq_refl) as Hu.
  repeat split; try assumption; reflexivity.
Defined.

(** C4, as stated, fails on an object whose [__len__] raises
    [KeyboardInterrupt], which is not an [Exception]: both methods let it
    through.  When [__len__] raises an [Exception] whose [__str__] does not
    return a string, the handler of [identify_market_structure] raises
    [TypeError] while formatting the log line. *)
Lemma exceptions_escape_counterexample :
  identify_market_structure init (PRaises KeyboardInterrupt)
  = raise KeyboardInterrupt /\
  get_smc_signal init (PRaises KeyboardInterrupt) = raise KeyboardInterrupt /\
  identify_market_structure init (PRaises Unprintable) = raise TypeError.
Proof. repeat split. Qed.

(** ** Scoring *)

Lemma round_half_even_bounds (y : Q) (lo hi : Z) :
  (inject_Z lo <= y)%Q -> (y <= inject_Z hi)%Q ->
  (lo <= round_half_even y <= hi)%Z.
Proof.
  intros Hlo Hhi. unfold round_half_even.
  assert (Hf1 : (lo <= Qfloor y)%Z)
    by (rewrite <- (Qfloor_Z lo); now apply Qfloor_resp_le).
  assert (Hf2 : (Qfloor y <= hi)%Z)
    by (rewrite <- (Qfloor_Z hi); now apply Qfloor_resp_le).
  assert (Hup : (1 # 2 <= y - inject_Z (Qfloor y))%Q -> (Qfloor y + 1 <= hi)%Z).
  { intros Hhalf.
    assert (Hlt : (inject_Z (Qfloor y) < inject_Z hi)%Q) by lra.
    rewrite <- Zlt_Qlt in Hlt. lia. }
  destruct (y - inject_Z (Qfloor y) ?= 1 # 2)%Q eqn:E.
  - apply Qeq_alt in E.
    destruct (Z.even (Qfloor y)); [lia|].
    split; [lia|]. apply Hup. rewrite E. apply Qle_refl.
  - lia.
  - apply Qgt_alt in E. split; [lia|]. apply Hup. now apply Qlt_le_weak.
Qed.

Lemma py_round1_bounds (x : Q) :
  (0 <= x)%Q -> (x <= 95)%Q ->
  (0 <= py_round1 x)%Q /\ (py_round1 x <= 95)%Q /\
  exists k : Z, (py_round1 x == inject_Z k / 10)%Q.
Proof.
  intros H0 H95. unfold py_round1.
  destruct (round_half_even_bounds (x * 10) 0 950) as [Hr0 Hr1].
  - change (inject_Z 0) with 0%Q. lra.
  - change (inject_Z 950) with 950%Q. lra.
  - set (r := round_half_even (x * 10)) in *.
    rewrite Zle_Qle in Hr0, Hr1.
    change (inject_Z 0) with 0%Q in Hr0.
    change (inject_Z 950) with 950%Q in Hr1.
    split; [|split].
    + apply Qle_shift_div_l; [reflexivity|lra].
    + apply Qle_shift_div_r; [reflexivity|lra].
    + exists r. reflexivity.
Qed.

Lemma pow2_pos e : (0 < pow2 e)%Q.
Proof. unfold pow2. apply Qpower_0_lt. reflexivity. Qed.

Lemma round_half_even_nonneg (y : Q) : (0 <= y)%Q -> (0 <= round_half_even y)%Z.
Proof.
  intros Hy.
  destruct (round_half_even_bounds y 0 (Qfloor y + 1)) as [H _];
    [exact Hy | apply Qlt_le_weak, Qlt_floor | exact H].
Qed.

Lemma fl_pos_nonneg (a : Q) : (0 < a)%Q -> (0 <= fl_pos a)%Q.
Proof.
  intros Ha. unfold fl_pos.
  set (e := if Qle_bool _ _ then _ else _).
  apply Qmult_le_0_compat; [|apply Qlt_le_weak, pow2_pos].
  change 0%Q with (inject_Z 0). rewrite <- Zle_Qle.
  apply round_half_even_nonneg.
  apply Qle_shift_div_l; [apply pow2_pos|].
  rewrite Qmult_0_l. now apply Qlt_le_weak.
Qed.

Lemma fl_nonneg (x : Q) : (0 <= x)%Q -> (0 <= fl x)%Q.
Proof.
  intros Hx. unfold fl. destruct (x ?= 0)%Q eqn:E.
  - apply Qle_refl.
  - apply Qlt_alt in E. exfalso. exact (Qlt_not_le _ _ E Hx).
  - apply Qgt_alt in E. now apply fl_pos_nonneg.
Qed.

Lemma share_bounds (a total : Z) :
  (0 <= a)%Z -> (0 < total)%Z ->
  (0 <= Qmin (share a total) 95)%Q /\ (Qmin (share a total) 95 <= 95)%Q.
Proof.
  intros Ha Ht. split; [|apply Q.le_min_r].
  apply Q.min_glb; [|discriminate].
  unfold share. apply fl_nonneg.
  apply Qmult_le_0_compat; [|discriminate].
  apply fl_nonneg. apply Qle_shift_div_l.
  - change 0%Q with (inject_Z 0). now rewrite <- Zlt_Qlt.
  - rewrite Qmult_0_l. change 0%Q with (inject_Z 0). now rewrite <- Zle_Qle.
Qed.

Lemma smc_decide_confidence (buy_score sell_score : Z) (sg : Signal) :
  (0 <= buy_score)%Z -> (0 <= sell_score)%Z ->
  smc_decide buy_score sell_score = Some sg ->
  (0 <= confidence sg)%Q /\ (confidence sg <= 95)%Q /\
  exists k : Z, (confidence sg == inject_Z k / 10)%Q.
Proof.
  intros Hb Hs. unfold smc_decide.
  destruct (buy_score + sell_score =? 0)%Z eqn:E0; [discriminate|].
  apply Z.eqb_neq in E0.
  assert (Ht : (0 < buy_score + sell_score)%Z) by lia.
  destruct ((sell_score <? buy_score)%Z && (3 <=? buy_score)%Z).
  - intros [= <-]. cbn [confidence].
    destruct (share_bounds buy_score _ Hb Ht). now apply py_round1_bounds.
  - destruct ((buy_score <? sell_score)%Z && (3 <=? sell_score)%Z);
      [|discriminate].
    intros [= <-]. cbn [confidence].
    destruct (share_bounds sell_score _ Hs Ht). now apply py_round1_bounds.
Qed.

Lemma smc_scores_nonneg ms :
  (0 <= fst (smc_scores ms))%Z /\ (0 <= snd (smc_scores ms))%Z.
Proof. destruct ms as [[| |] [|] ch]; cbn; lia. Qed.

Lemma uptrend_swing_points :
  find_swing_highs init (frame_of uptrend)
  = ret [point_at High uptrend 5; point_at High uptrend 17] /\
  find_swing_lows init (frame_of uptrend)
  = ret [point_at Low uptrend 11; point_at Low uptrend 23].
Proof. split; vm_compute; reflexivity. Qed.

Lemma uptrend_is_bullish :
  identify_market_structure init (frame_of uptrend)
  = ret {| trend := BULLISH; bos_detected := true; choch_detected := false |}.
Proof. vm_compute. reflexivity. Qed.

(** C6: whenever the structure found is bullish with BOS, the tallies are
    buy 7 and sell 0, the share is 7/7*100 = 100, clamped to 95, and the
    signal is BUY with confidence 95.0. *)
Theorem bullish_bos_gives_buy_95 (self : SMCAnalyzer) (df : pyobj) :
  identify_market_structure self df
  = ret {| trend := BULLISH; bos_detected := true; choch_detected := false |} ->
  smc_scores
    {| trend := BULLISH; bos_detected := true; choch_detected := false |}
  = (7, 0)%Z /\
  (inject_Z 7 / inject_Z (7 + 0) * 100 == 100)%Q /\
  (share 7 (7 + 0) == 100)%Q /\
  (Qmin (share 7 (7 + 0)) 95 == 95)%Q /\
  exists sg,
    get_smc_signal self df = ret (Some sg) /\
    signal_type sg = BUY /\
    (confidence sg == 95)%Q.
Proof.
  intros E. rewrite (get_smc_signal_of self df _ E).
  split; [reflexivity|]. split; [reflexivity|].
  split; [vm_compute; reflexivity|]. split; [vm_compute; reflexivity|].
  eexists. split; [vm_compute; reflexivity|]. split; reflexivity.
Qed.

Lemma bullish_bos_gives_buy_95_witness :
  smc_scores
    {| trend := BULLISH; bos_detected := true; choch_detected := false |}
  = (7, 0)%Z /\
  exists sg,
    get_smc_signal init (frame_of uptrend) = ret (Some sg) /\
    signal_type sg = BUY /\
    (confidence sg == 95)%Q.
Proof.
  destruct (bullish_bos_gives_buy_95 init (frame_of uptrend))
    as (Hs & _ & _ & _ & Hsg).
  - vm_compute. reflexivity.
  - split; [exact Hs | exact Hsg].
Defined.

(** C7: whenever [get_smc_signal] returns a signal, its confidence lies
    between 0 and 95 and is a whole number of tenths. *)
Theorem confidence_bounded (self : SMCAnalyzer) (df : pyobj) (sg : Signal) :
  get_smc_signal self df = ret (Some sg) ->
  (0 <= confidence sg)%Q /\ (confidence sg <= 95)%Q /\
  exists k : Z, (confidence sg == inject_Z k / 10)%Q.
Proof.
  intros H. apply try_except_cases in H.
  destruct H as [H|(e & _ & H)]; [|discriminate H].
  unfold smc_signal_body in H.
  destruct (identify_market_structure self df) as [e|ms]; cbn [bind] in H;
    [discriminate H|].
  injection H as H. unfold smc_signal_of in H.
  pose proof (smc_scores_nonneg ms) as [Hb Hs].
  destruct (smc_scores ms) as [b s']. cbn [fst snd] in Hb, Hs.
  exact (smc_decide_confidence b s' sg Hb Hs H).
Qed.

Lemma confidence_bounded_witness :
  exists sg,
    get_smc_signal init (frame_of uptrend) = ret (Some sg) /\
    (0 <= confidence sg)%Q /\ (confidence sg <= 95)%Q /\
    exists k : Z, (confidence sg == inject_Z k / 10)%Q.
Proof.
  eexists. split; [vm_compute; reflexivity|].
  apply (confidence_bounded init (frame_of uptrend)).
  vm_compute. reflexivity.
Defined.

(** C1, as the code has it: in the BOS step the sell tally receives the +4
    exactly when [bos_detected] is true and the trend is not bullish, and the
    buy tally exactly when [bos_detected] is true and the trend is bullish.
    On every structure the classifier returns this is the same as
    [bos_detected] and a bearish trend.  A structure with [bos_detected] true
    and a neutral trend is scored buy 0, sell 4. *)
Theorem bos_bonus_spec (ms : MarketStructure) (s : Z * Z) :
  (snd (score_bos ms s) = (snd s + 4)%Z <->
   bos_detected ms = true /\ trend ms <> BULLISH) /\
  (fst (score_bos ms s) = (fst s + 4)%Z <->
   bos_detected ms = true /\ trend ms = BULLISH) /\
  (forall self df, identify_market_structure self df = ret ms ->
     (snd (score_bos ms s) = (snd s + 4)%Z <->
      bos_detected ms = true /\ trend ms = BEARISH)) /\
  (bos_detected ms = true -> trend ms = NEUTRAL -> smc_scores ms = (0, 4)%Z).
Proof.
  destruct s as [b sl]. split; [|split; [|split]].
  - destruct ms as [[| |] [|] ch]; cbn; split;
      try (intros [? ?]); try intros ?; try split;
      try congruence; try discriminate; try lia.
  - destruct ms as [[| |] [|] ch]; cbn; split;
      try (intros [? ?]); try intros ?; try split;
      try congruence; try discriminate; try lia.
  - intros self df H.
    destruct (identify_market_structure_cases self df ms H) as [->|[->| ->]];
      cbn; split;
      try (intros [? ?]); try intros ?; try split;
      try congruence; try discriminate; try lia.
  - destruct ms as [[| |] [|] ch]; cbn; intros; congruence.
Qed.

(** C1, as stated, fails at the structure [{NEUTRAL, bos_detected = true}]:
    the trend is not bearish, yet the sell tally receives the +4, the tallies
    are (0, 4) and not (0, 0), and a SELL signal comes out. *)
Lemma bos_bonus_neutral_counterexample :
  trend {| trend := NEUTRAL; bos_detected := true; choch_detected := false |}
  <> BEARISH /\
  snd (score_bos
         {| trend := NEUTRAL; bos_detected := true; choch_detected := false |}
         (0, 0)%Z) = (0 + 4)%Z /\
  smc_scores
    {| trend := NEUTRAL; bos_detected := true; choch_detected := false |}
  = (0, 4)%Z /\
  smc_scores
    {| trend := NEUTRAL; bos_detected := true; choch_detected := false |}
  <> (0, 0)%Z /\
  smc_signal_of
    {| trend := NEUTRAL; bos_detected := true; choch_detected := false |}
  = Some {| signal_type := SELL; confidence := 950 # 10 |}.
Proof.
  split; [discriminate|]. split; [reflexivity|]. split; [reflexivity|].
  split; [discriminate|]. vm_compute. reflexivity.
Qed.


(** ** The whole pipeline on a price series *)

Lemma two_last {A : Type} (l : list A) (b a : A) (r : list A) :
  rev l = b :: a :: r -> l = rev r ++ [a; b].
Proof.
  intros E. rewrite <- (rev_involutive l), E. cbn [rev].
  now rewrite <- app_assoc.
Qed.

Lemma rev_short {A : Type} (l : list A) :
  (rev l = [] \/ exists a, rev l = [a]) -> length l < 2.
Proof.
  rewrite <- (length_rev l). intros [->|[a ->]]; cbn; lia.
Qed.

Lemma identify_series self s :
  identify_market_structure self (frame_of s)
  = ret (structure_at (column_of High s) (column_of Low s)
           (swing_positions Qge_bool (column_of High s) (swing_length self))
           (swing_positions Qle_bool (column_of Low s) (swing_length self))).
Proof.
  pose proof (find_swing_positions self s High Qge_bool str_ge) as Eh.
  pose proof (find_swing_positions self s Low Qle_bool str_le) as El.
  fold py_ge in Eh. fold py_le in El.
  fold (find_swing_highs self (frame_of s)) in Eh.
  fold (find_swing_lows self (frame_of s)) in El.
  unfold identify_market_structure, market_structure_body.
  rewrite Eh, El, !bind_ret. unfold structure_at.
  set (hp := swing_positions Qge_bool _ _).
  set (lp := swing_positions Qle_bool _ _).
  destruct (rev hp) as [|i1 [|i0 rh]] eqn:Rh.
  - rewrite structure_of_swings_few; [reflexivity|].
    left. rewrite length_map. apply rev_short. now left.
  - rewrite structure_of_swings_few; [reflexivity|].
    left. rewrite length_map. apply rev_short. right. now exists i1.
  - destruct (rev lp) as [|k1 [|k0 rl]] eqn:Rl.
    + rewrite structure_of_swings_few; [reflexivity|].
      right. rewrite length_map. apply rev_short. now left.
    + rewrite structure_of_swings_few; [reflexivity|].
      right. rewrite length_map. apply rev_short. right. now exists k1.
    + rewrite (two_last hp _ _ _ Rh), (two_last lp _ _ _ Rl), !map_app.
      cbn [map].
      rewrite (structure_of_swings_recent _ _ _ _ _ _
                 (nth i0 (column_of High s) 0%Q) (nth i1 (column_of High s) 0%Q)
                 (nth k0 (column_of Low s) 0%Q) (nth k1 (column_of Low s) 0%Q))
        by reflexivity.
      reflexivity.
Qed.

Lemma get_smc_signal_series self s :
  get_smc_signal self (frame_of s)
  = ret (smc_signal_of
           (structure_at (column_of High s) (column_of Low s)
              (swing_positions Qge_bool (column_of High s) (swing_length self))
              (swing_positions Qle_bool (column_of Low s) (swing_length self)))).
Proof. apply get_smc_signal_of, identify_series. Qed.

(** X1: the signal is decided by the trend alone.  On every frame and on
    [None] both methods return; and whenever a structure is returned, a
    bullish one gives BUY, a bearish one SELL, a neutral one no signal, and
    every signal that comes out has confidence 95. *)
Theorem signal_follows_trend (self : SMCAnalyzer) (df : pyobj) :
  (is_data df = true ->
   exists ms r, identify_market_structure self df = ret ms /\
                get_smc_signal self df = ret r) /\
  (forall ms, identify_market_structure self df = ret ms ->
     (get_smc_signal self df = ret None <-> trend ms = NEUTRAL) /\
     (forall sg, get_smc_signal self df = ret (Some sg) ->
        (confidence sg == 95)%Q /\
        (signal_type sg = BUY <-> trend ms = BULLISH) /\
        (signal_type sg = SELL <-> trend ms = BEARISH))).
Proof.
  split.
  - intros Hd. destruct (identify_returns self df Hd) as [ms E].
    exists ms. eexists. split; [exact E|]. exact (get_smc_signal_of _ _ _ E).
  - intros ms E. rewrite (get_smc_signal_of self df ms E).
    destruct (identify_market_structure_cases self df ms E) as [->|[->| ->]].
    + split; [split; reflexivity|]. intros sg H. discriminate H.
    + split; [split; intros H; discriminate H|].
      intros sg H. vm_compute in H. injection H as <-.
      split; [reflexivity|].
      split; split; intros H; (reflexivity || discriminate H).
    + split; [split; intros H; discriminate H|].
      intros sg H. vm_compute in H. injection H as <-.
      split; [reflexivity|].
      split; split; intros H; (reflexivity || discriminate H).
Qed.

(** ** How many swing points a series can hold *)

Lemma Qge_bool_anti x y : Qge_bool x y = false -> Qge_bool y x = false -> False.
Proof.
  intros Hx Hy. apply Qge_bool_false in Hx, Hy.
  exact (Qlt_irrefl x (Qlt_trans _ _ _ Hx Hy)).
Qed.

Lemma Qle_bool_anti x y : Qle_bool x y = false -> Qle_bool y x = false -> False.
Proof.
  intros Hx Hy. apply Qle_bool_false in Hx, Hy.
  exact (Qlt_irrefl x (Qlt_trans _ _ _ Hy Hx)).
Qed.

Lemma spaced_span (g : nat) (l : list nat) :
  forall lo hi,
    StronglySorted lt l ->
    (forall i k, In i l -> In k l -> i < k -> i + g <= k) ->
    (forall i, In i l -> lo <= i <= hi) ->
    l <> [] ->
    lo + (length l - 1) * g <= hi.
Proof.
  induction l as [|a l IH]; intros lo hi Hs Hg Hr Hne; [congruence|].
  apply StronglySorted_inv in Hs. destruct Hs as [Hs Hall].
  rewrite Forall_forall in Hall.
  destruct l as [|b l'].
  - cbn. specialize (Hr a (or_introl eq_refl)). lia.
  - assert (H : a + g + (length (b :: l') - 1) * g <= hi).
    { apply IH.
      - exact Hs.
      - intros i k Hi Hk. apply Hg; now right.
      - intros i Hi. split.
        + apply Hg; [now left | now right | now apply Hall].
        + apply Hr. now right.
      - discriminate. }
    specialize (Hr a (or_introl eq_refl)). cbn [length] in *. nia.
Qed.


Lemma structure_at_few hq lq hp lp :
  length hp < 2 \/ length lp < 2 -> structure_at hq lq hp lp = neutral_structure.
Proof.
  unfold structure_at. rewrite <- (length_rev hp), <- (length_rev lp).
  destruct (rev hp) as [|i1 [|i0 rh]]; try reflexivity.
  destruct (rev lp) as [|k1 [|k0 rl]]; try reflexivity.
  cbn [length]. lia.
Qed.



(** The bound of X3 is reached: seventeen bars can be bullish. *)
Lemma seventeen_bars_can_trend :
  length spikes = 3 * swing_length init + 2 /\
  identify_market_structure init (frame_of spikes) = ret bullish_structure.
Proof. split; vm_compute; reflexivity. Qed.

(** ** What the swing points depend on *)

Lemma window_clear_rel op op' qs qs' w i :
  (forall j, i - w <= j <= i + w ->
     op (nth j qs 0%Q) (nth i qs 0%Q) = op' (nth j qs' 0%Q) (nth i qs' 0%Q)) ->
  window_clear op qs w i = window_clear op' qs' w i.
Proof.
  intros H. apply eq_true_iff_eq. rewrite !window_clear_iff.
  split; intros Hc j Hj Hne.
  - rewrite <- H by exact Hj. now apply Hc.
  - rewrite H by exact Hj. now apply Hc.
Qed.

Lemma swing_positions_rel op op' qs qs' w :
  length qs = length qs' ->
  (forall i j, i < length qs -> j < length qs ->
     op (nth j qs 0%Q) (nth i qs 0%Q) = op' (nth j qs' 0%Q) (nth i qs' 0%Q)) ->
  swing_positions op qs w = swing_positions op' qs' w.
Proof.
  intros Hlen H. unfold swing_positions. rewrite <- Hlen.
  apply filter_ext_in. intros i Hi. apply range_In in Hi.
  apply window_clear_rel. intros j Hj. apply H; lia.
Qed.

Lemma swing_positions_lt op qs w i :
  In i (swing_positions op qs w) -> i + w < length qs.
Proof. intros Hi. apply swing_positions_In in Hi. lia. Qed.






Lemma nth_map_in (f : Q -> Q) (l : list Q) (j : nat) :
  j < length l -> nth j (map f l) 0%Q = f (nth j l 0%Q).
Proof.
  intros Hj. rewrite (nth_indep _ 0%Q (f 0%Q)) by now rewrite length_map.
  apply map_nth.
Qed.

Lemma column_of_map_prices c f s :
  column_of c (map_prices f s) = map f (column_of c s).
Proof.
  unfold map_prices. destruct c; cbn [column_of]; rewrite !map_map; reflexivity.
Qed.



Lemma Qle_bool_mono (f : Q -> Q) :
  (forall x y, (f x <= f y)%Q <-> (x <= y)%Q) ->
  forall x y, Qle_bool (f x) (f y) = Qle_bool x y.
Proof.
  intros Hf x y. apply eq_true_iff_eq. rewrite !Qle_bool_iff. apply Hf.
Qed.


Lemma structure_at_rel hq lq hq' lq' hp lp :
  (forall i k, In i hp -> In k hp ->
     Qle_bool (nth i hq' 0%Q) (nth k hq' 0%Q)
     = Qle_bool (nth i hq 0%Q) (nth k hq 0%Q)) ->
  (forall i k, In i lp -> In k lp ->
     Qle_bool (nth i lq' 0%Q) (nth k lq' 0%Q)
     = Qle_bool (nth i lq 0%Q) (nth k lq 0%Q)) ->
  structure_at hq' lq' hp lp = structure_at hq lq hp lp.
Proof.
  intros Hh Hl. unfold structure_at.
  destruct (rev hp) as [|i1 [|i0 rh]] eqn:Rh; try reflexivity.
  destruct (rev lp) as [|k1 [|k0 rl]] eqn:Rl; try reflexivity.
  assert (Hi1 : In i1 hp) by (apply in_rev; rewrite Rh; now left).
  assert (Hi0 : In i0 hp) by (apply in_rev; rewrite Rh; right; now left).
  assert (Hk1 : In k1 lp) by (apply in_rev; rewrite Rl; now left).
  assert (Hk0 : In k0 lp) by (apply in_rev; rewrite Rl; right; now left).
  unfold classify_prices, Qgt_bool, Qlt_bool.
  rewrite (Hh i1 i0), (Hh i0 i1), (Hl k1 k0), (Hl k0 k1) by assumption.
  reflexivity.
Qed.

Lemma swing_positions_map_mono f op qs w :
  (forall x y, op (f x) (f y) = op x y) ->
  swing_positions op (map f qs) w = swing_positions op qs w.
Proof.
  intros Hop. apply swing_positions_rel; [apply length_map|].
  rewrite length_map. intros i j Hi Hj.
  rewrite !nth_map_in by assumption. apply Hop.
Qed.

Lemma structure_at_map_prices self s f :
  (forall x y, (f x <= f y)%Q <-> (x <= y)%Q) ->
  structure_at (column_of High (map_prices f s)) (column_of Low (map_prices f s))
    (swing_positions Qge_bool (column_of High (map_prices f s))
       (swing_length self))
    (swing_positions Qle_bool (column_of Low (map_prices f s))
       (swing_length self))
  = structure_at (column_of High s) (column_of Low s)
      (swing_positions Qge_bool (column_of High s) (swing_length self))
      (swing_positions Qle_bool (column_of Low s) (swing_length self)).
Proof.
  intros Hf. pose proof (Qle_bool_mono f Hf) as Hle.
  rewrite !column_of_map_prices.
  rewrite (swing_positions_map_mono f Qge_bool)
    by (intros x y; unfold Qge_bool; apply Hle).
  rewrite (swing_positions_map_mono f Qle_bool) by exact Hle.
  apply structure_at_rel; intros i k Hi Hk;
    apply swing_positions_lt in Hi, Hk;
    rewrite !nth_map_in by lia; apply Hle.
Qed.

(** X5: only the order of the prices matters.  Sending every high and low
    through a strictly increasing map [f] (one with [f x <= f y] exactly
    when [x <= y]: a change of unit, a shift, a logarithm) leaves the
    positions of the swing highs and swing lows, the market structure and the
    signal unchanged. *)
Theorem strictly_increasing_invariance
  (self : SMCAnalyzer) (s : PriceSeries) (f : Q -> Q) :
  (forall x y, (f x <= f y)%Q <-> (x <= y)%Q) ->
  (exists hs hs' ls ls',
     find_swing_highs self (frame_of s) = ret hs /\
     find_swing_highs self (frame_of (map_prices f s)) = ret hs' /\
     find_swing_lows self (frame_of s) = ret ls /\
     find_swing_lows self (frame_of (map_prices f s)) = ret ls' /\
     map sp_index hs' = map sp_index hs /\
     map sp_index ls' = map sp_index ls) /\
  (exists ms r,
     identify_market_structure self (frame_of s) = ret ms /\
     identify_market_structure self (frame_of (map_prices f s)) = ret ms /\
     get_smc_signal self (frame_of s) = ret r /\
     get_smc_signal self (frame_of (map_prices f s)) = ret r).
Proof.
  intros Hf. pose proof (Qle_bool_mono f Hf) as Hle.
  split.
  - do 4 eexists.
    split; [apply find_swing_positions|].
    split; [apply find_swing_positions|].
    split; [apply find_swing_positions|].
    split; [apply find_swing_positions|].
    rewrite !map_index_point_at, !column_of_map_prices.
    split.
    + apply swing_positions_map_mono. intros x y. unfold Qge_bool. apply Hle.
    + apply swing_positions_map_mono. exact Hle.
  - do 2 eexists.
    split; [apply identify_series|].
    split; [rewrite identify_series, (structure_at_map_prices self s f Hf);
            reflexivity|].
    split; [apply get_smc_signal_series|].
    rewrite get_smc_signal_series, (structure_at_map_prices self s f Hf).
    reflexivity.
Qed.

Lemma strictly_increasing_invariance_witness :
  exists ms r,
    identify_market_structure init (frame_of uptrend) = ret ms /\
    identify_market_structure init
      (frame_of (map_prices (fun x => x * 2 + 1)%Q uptrend)) = ret ms /\
    get_smc_signal init (frame_of uptrend) = ret r /\
    get_smc_signal init (frame_of (map_prices (fun x => x * 2 + 1)%Q uptrend))
    = ret r.
Proof.
  apply (strictly_increasing_invariance init uptrend (fun x => x * 2 + 1)%Q).
  intros x y. split; intros H; lra.
Defined.



(** ** Highs against lows *)








(** ** The decision step on arbitrary tallies *)



(** The division and the product are float operations: 51/80*100 is a
    little under 63.75 and rounds to 63.7, 49/80*100 a little over 61.25 and
    rounds to 61.3; 4/7*100 rounds to 57.1. *)
Lemma smc_decide_float_rounding :
  (exists sg, smc_decide 51 29 = Some sg /\ signal_type sg = BUY /\
              (confidence sg == 637 # 10)%Q) /\
  (exists sg, smc_decide 31 49 = Some sg /\ signal_type sg = SELL /\
              (confidence sg == 613 # 10)%Q) /\
  (exists sg, smc_decide 3 4 = Some sg /\ signal_type sg = SELL /\
              (confidence sg == 571 # 10)%Q).
Proof.
  repeat split; eexists; (split; [vm_compute; reflexivity|]);
    split; reflexivity.
Qed.

(** ** The scans on any input *)

Section AnyInput.
Variable self : SMCAnalyzer.
Variable df : pyobj.
Variable c : column.
Variable disq : value -> value -> M bool.

Lemma swing_loop_inv n cands :
  py_len df = ret n ->
  (forall i, In i cands -> swing_length self <= i /\ i + swing_length self < n) ->
  forall acc r,
    swing_loop self df c disq cands acc = ret r ->
    exists l,
      r = acc ++ l /\
      Forall (well_placed self df c disq) l /\
      (forall p, In p l -> In (sp_index p) cands) /\
      (StronglySorted lt cands -> StronglySorted lt (map sp_index l)).
Proof.
  intros Hn. induction cands as [|i cands IH]; intros Hc acc r.
  - cbn. intros [= <-]. exists []. rewrite app_nil_r.
    repeat split; try constructor. intros p [].
  - assert (Hc' : forall k, In k cands ->
                            swing_length self <= k /\ k + swing_length self < n)
      by (intros k Hk; apply Hc; now right).
    cbn [swing_loop].
    destruct (getitem df c) as [e|col] eqn:G; cbn [bind]; [discriminate|].
    destruct (iloc col i) as [e|cur] eqn:I; cbn [bind]; [discriminate|].
    destruct (window_scan df c disq cur i _) as [e|[|]] eqn:Wn;
      cbn [bind]; [discriminate| |].
    + destruct (index_at df i) as [e|t] eqn:T; cbn [bind]; [discriminate|].
      intros H. apply (IH Hc') in H. destruct H as (l & -> & Hall & Hin & Hs).
      exists ({| sp_index := i; sp_price := cur; sp_time := t |} :: l).
      rewrite <- app_assoc. split; [reflexivity|]. split; [|split].
      * constructor; [|exact Hall].
        unfold well_placed. cbn [sp_index sp_price sp_time].
        split; [exists n; split; [exact Hn | apply Hc; now left]|].
        split; [exists col; now split|]. split; assumption.
      * intros p [<-|Hp]; [now left | right; now apply Hin].
      * intros Hsorted. apply StronglySorted_inv in Hsorted.
        destruct Hsorted as [Hs' Hall'].
        cbn [map sp_index]. constructor; [now apply Hs|].
        rewrite Forall_forall in *. intros k Hk.
        apply in_map_iff in Hk. destruct Hk as (p & <- & Hp).
        apply Hall'. now apply Hin.
    + intros H. apply (IH Hc') in H. destruct H as (l & -> & Hall & Hin & Hs).
      exists l. split; [reflexivity|]. split; [exact Hall|]. split.
      * intros p Hp. right. now apply Hin.
      * intros Hsorted. apply StronglySorted_inv in Hsorted. now apply Hs.
Qed.

Lemma find_swing_inv r :
  find_swing self df c disq = ret r ->
  StronglySorted lt (map sp_index r) /\ Forall (well_placed self df c disq) r.
Proof.
  unfold find_swing.
  destruct (py_len df) as [e|n] eqn:Hn; cbn [bind]; [discriminate|].
  intros H. apply (swing_loop_inv n) in H; [|exact Hn|].
  - destruct H as (l & -> & Hall & _ & Hs). cbn [app]. split; [|exact Hall].
    apply Hs, seq_StronglySorted.
  - intros i Hi. apply range_In in Hi. lia.
Qed.
End AnyInput.

(** X9: on any input at all, well-formed or not, a scan that returns does so
    with points in ascending position order, each at a position [i] with
    [swing_length <= i < len(df) - swing_length], carrying the cell of its
    column at [i] as price and the row label at [i] as time, and having
    passed the window test. *)
Theorem scans_return_well_placed_points (self : SMCAnalyzer) (df : pyobj) :
  (forall hs, find_swing_highs self df = ret hs ->
     StronglySorted lt (map sp_index hs) /\
     Forall (well_placed self df High py_ge) hs) /\
  (forall ls, find_swing_lows self df = ret ls ->
     StronglySorted lt (map sp_index ls) /\
     Forall (well_placed self df Low py_le) ls).
Proof. split; intros r H; now apply find_swing_inv. Qed.

(** ** Missing columns *)

Lemma find_swing_missing self df c disq :
  2 * swing_length self + 1 <= length (df_index df) ->
  match c with High => df_High df | Low => df_Low df end = None ->
  find_swing self (PFrame df) c disq = raise KeyError.
Proof.
  intros Hlen Hnone. unfold find_swing, range.
  cbn [py_len]. rewrite bind_ret.
  destruct (length (df_index df) - swing_length self - swing_length self)
    as [|m] eqn:E; [lia|].
  cbn [seq swing_loop getitem]. rewrite Hnone. reflexivity.
Qed.

(** X11: on a frame long enough for one candidate position
    ([len(df) >= 2 * swing_length + 1]), a missing ['High'] column makes
    [find_swing_highs] raise [KeyError] and a missing ['Low'] column makes
    [find_swing_lows] raise [KeyError]; either way the body of
    [identify_market_structure] raises, the structure returned is the neutral
    one and there is no signal. *)
Theorem missing_column_behaviour (self : SMCAnalyzer) (df : DataFrame) :
  2 * swing_length self + 1 <= length (df_index df) ->
  (df_High df = None -> find_swing_highs self (PFrame df) = raise KeyError) /\
  (df_Low df = None -> find_swing_lows self (PFrame df) = raise KeyError) /\
  (df_High df = None \/ df_Low df = None ->
   (exists e, market_structure_body self (PFrame df) = raise e) /\
   identify_market_structure self (PFrame df) = ret neutral_structure /\
   get_smc_signal self (PFrame df) = ret None).
Proof.
  intros Hlen.
  assert (Hh : df_High df = None ->
               find_swing_highs self (PFrame df) = raise KeyError)
    by (intros H; now apply find_swing_missing).
  assert (Hl : df_Low df = None ->
               find_swing_lows self (PFrame df) = raise KeyError)
    by (intros H; now apply find_swing_missing).
  split; [exact Hh|]. split; [exact Hl|].
  intros Hmiss.
  assert (Hbody : exists e, market_structure_body self (PFrame df) = raise e).
  { unfold market_structure_body. destruct Hmiss as [H|H].
    - rewrite (Hh H). now exists KeyError.
    - destruct (find_swing_highs self (PFrame df)) as [e|hs]; cbn [bind].
      + now exists e.
      + rewrite (Hl H). now exists KeyError. }
  split; [exact Hbody|]. destruct Hbody as [e He].
  assert (E : identify_market_structure self (PFrame df)
              = ret neutral_structure).
  { apply (ordinary_caught _ _ e He).
    exact (market_structure_body_ordinary self (PFrame df) e eq_refl He). }
  split; [exact E|]. now rewrite (get_smc_signal_of _ _ _ E).
Qed.

Lemma missing_column_behaviour_witness :
  find_swing_highs init frame_without_high = raise KeyError /\
  identify_market_structure init frame_without_high = ret neutral_structure /\
  get_smc_signal init frame_without_high = ret None.
Proof.
  destruct (missing_column_behaviour init
              {| df_index := map Z.of_nat (seq 0 11);
                 df_High := None;
                 df_Low := Some (map (fun i => VNum (inject_Z (Z.of_nat i)))
                                   (seq 0 11)) |})
    as (Hh & _ & Hs).
  - cbn. lia.
  - destruct (Hs (or_introl eq_refl)) as (_ & Hi & Hg).
    split; [exact (Hh eq_refl)|]. split; [exact Hi | exact Hg].
Defined.

(** ** Series that only rise or only fall *)

Lemma swing_positions_none op qs w :
  (forall i, w <= i -> i + w < length qs ->
     exists j, i - w <= j <= i + w /\ j <> i /\
               op (nth j qs 0%Q) (nth i qs 0%Q) = true) ->
  swing_positions op qs w = [].
Proof.
  intros H. destruct (swing_positions op qs w) as [|i l] eqn:E; [reflexivity|].
  assert (Hi : In i (swing_positions op qs w)) by (rewrite E; now left).
  apply swing_positions_In in Hi. destruct Hi as [Hr Hw].
  destruct (H i) as (j & Hj & Hne & Hop); [lia|lia|].
  rewrite (Hw j Hj Hne) in Hop. discriminate.
Qed.

Lemma monotone_no_swing_high qs w :
  1 <= w -> non_decreasing qs \/ non_increasing qs ->
  swing_positions Qge_bool qs w = [].
Proof.
  intros Hw [Hm|Hm]; apply swing_positions_none; intros i Hi Hn.
  - exists (i + 1). split; [lia|]. split; [lia|].
    apply Qle_bool_iff. apply Hm. lia.
  - exists (i - 1). split; [lia|]. split; [lia|].
    apply Qle_bool_iff. specialize (Hm (i - 1)).
    replace (i - 1 + 1) with i in Hm by lia. apply Hm. lia.
Qed.

Lemma monotone_no_swing_low qs w :
  1 <= w -> non_decreasing qs \/ non_increasing qs ->
  swing_positions Qle_bool qs w = [].
Proof.
  intros Hw [Hm|Hm]; apply swing_positions_none; intros i Hi Hn.
  - exists (i - 1). split; [lia|]. split; [lia|].
    apply Qle_bool_iff. specialize (Hm (i - 1)).
    replace (i - 1 + 1) with i in Hm by lia. apply Hm. lia.
  - exists (i + 1). split; [lia|]. split; [lia|].
    apply Qle_bool_iff. apply Hm. lia.
Qed.

(** X12: with [swing_length >= 1], a series whose highs never fall, or never
    rise, from one bar to the next has no swing high, and one whose lows
    never fall, or never rise, has no swing low; in each case the structure
    is neutral and there is no signal, however strong the move. *)
Theorem monotone_series_no_signal (self : SMCAnalyzer) (s : PriceSeries) :
  1 <= swing_length self ->
  (non_decreasing (column_of High s) \/ non_increasing (column_of High s) ->
   find_swing_highs self (frame_of s) = ret []) /\
  (non_decreasing (column_of Low s) \/ non_increasing (column_of Low s) ->
   find_swing_lows self (frame_of s) = ret []) /\
  (non_decreasing (column_of High s) \/ non_increasing (column_of High s) \/
   non_decreasing (column_of Low s) \/ non_increasing (column_of Low s) ->
   identify_market_structure self (frame_of s) = ret neutral_structure /\
   get_smc_signal self (frame_of s) = ret None).
Proof.
  intros HW. split; [|split].
  - intros Hm. unfold find_swing_highs, py_ge.
    rewrite find_swing_positions, monotone_no_swing_high by assumption.
    reflexivity.
  - intros Hm. unfold find_swing_lows, py_le.
    rewrite find_swing_positions, monotone_no_swing_low by assumption.
    reflexivity.
  - intros Hm.
    assert (E : identify_market_structure self (frame_of s)
                = ret neutral_structure).
    { rewrite identify_series. f_equal. apply structure_at_few.
      destruct Hm as [Hm|[Hm|[Hm|Hm]]].
      - left. rewrite monotone_no_swing_high by auto. cbn. lia.
      - left. rewrite monotone_no_swing_high by auto. cbn. lia.
      - right. rewrite monotone_no_swing_low by auto. cbn. lia.
      - right. rewrite monotone_no_swing_low by auto. cbn. lia. }
    split; [exact E|]. now rewrite (get_smc_signal_of _ _ _ E).
Qed.

Lemma staircase_rises : non_decreasing (column_of High staircase).
Proof.
  intros j Hj. change (length (column_of High staircase)) with 20 in Hj.
  do 19 (destruct j as [|j]; [vm_compute; discriminate|]).
  lia.
Qed.

Lemma monotone_series_no_signal_witness :
  find_swing_highs init (frame_of staircase) = ret [] /\
  identify_market_structure init (frame_of staircase) = ret neutral_structure /\
  get_smc_signal init (frame_of staircase) = ret None.
Proof.
  destruct (monotone_series_no_signal init staircase) as (Hh & _ & Hs).
  - cbn. lia.
  - split; [exact (Hh (or_introl staircase_rises))|].
    exact (Hs (or_introl staircase_rises)).
Defined.

(** ** The scans on a series that may hold NaN *)

Lemma fcolumn_of_length c s : length (fcolumn_of c s) = length s.
Proof. destruct c; apply length_map. Qed.

Lemma getitem_fframe_of c s :
  getitem (fframe_of s) c = ret (map cell_of (fcolumn_of c s)).
Proof. destruct c; reflexivity. Qed.

Lemma index_at_fframe_of s i :
  i < length s ->
  index_at (fframe_of s) i = ret (nth i (map ftimestamp s) 0%Z).
Proof.
  intros Hi. unfold index_at, fframe_of, iloc. cbn [df_index].
  rewrite (nth_error_nth' _ 0%Z); [reflexivity | now rewrite length_map].
Qed.

Lemma py_cmp_cells op sop a b :
  py_cmp op sop (cell_of a) (cell_of b) = ret (price_cmp op a b).
Proof. destruct a, b; reflexivity. Qed.

Section OnFloatSeries.
Variable self : SMCAnalyzer.
Variable s : FloatSeries.
Variable c : column.
Variable op : Q -> Q -> bool.
Variable sop : String.string -> String.string -> bool.

Let W := swing_length self.
Let ps := fcolumn_of c s.

Lemma window_scan_fseries p i js :
  (forall j, In j js -> j < length s) ->
  window_scan (fframe_of s) c (py_cmp op sop) (cell_of p) i js
  = ret (forallb (fun j => Nat.eqb j i
                           || negb (price_cmp op (nth j ps NaN) p)) js).
Proof.
  induction js as [|j js IH]; intros Hb; [reflexivity|].
  cbn [window_scan forallb].
  destruct (Nat.eqb j i) eqn:E.
  - cbn [orb andb]. apply IH. intros k Hk. apply Hb. now right.
  - rewrite getitem_fframe_of, bind_ret.
    rewrite (iloc_map cell_of _ NaN), bind_ret
      by (rewrite fcolumn_of_length; apply Hb; now left).
    rewrite py_cmp_cells, bind_ret. fold ps.
    destruct (price_cmp op (nth j ps NaN) p); cbn [orb negb andb];
      [reflexivity|].
    apply IH. intros k Hk. apply Hb. now right.
Qed.

Lemma swing_loop_fseries cands acc :
  (forall i, In i cands -> i + W < length s) ->
  swing_loop self (fframe_of s) c (py_cmp op sop) cands acc
  = ret (acc ++ map (fpoint_at c s) (filter (fwindow_clear op ps W) cands)).
Proof.
  revert acc. induction cands as [|i cands IH]; intros acc Hb.
  - cbn. now rewrite app_nil_r.
  - assert (Hi : i + W < length s) by (apply Hb; now left).
    assert (Hrest : forall k, In k cands -> k + W < length s)
      by (intros k Hk; apply Hb; now right).
    cbn [swing_loop filter].
    rewrite getitem_fframe_of, bind_ret.
    rewrite (iloc_map cell_of _ NaN), bind_ret
      by (rewrite fcolumn_of_length; lia).
    rewrite window_scan_fseries, bind_ret
      by (intros j Hj; apply range_In in Hj; fold W in Hj; lia).
    fold W ps. change (forallb _ _) with (fwindow_clear op ps W i).
    destruct (fwindow_clear op ps W i).
    + rewrite index_at_fframe_of, bind_ret by lia.
      rewrite IH by exact Hrest.
      cbn [map]. rewrite <- app_assoc. reflexivity.
    + now apply IH.
Qed.

Lemma find_swing_fseries :
  find_swing self (fframe_of s) c (py_cmp op sop)
  = ret (map (fpoint_at c s) (fswing_positions op ps W)).
Proof.
  unfold find_swing, fswing_positions. cbn [py_len fframe_of df_index].
  rewrite length_map, bind_ret. fold W.
  unfold ps. rewrite fcolumn_of_length.
  rewrite swing_loop_fseries; [reflexivity|].
  intros i Hi. apply range_In in Hi. lia.
Qed.
End OnFloatSeries.

Lemma fwindow_clear_iff op ps w i :
  fwindow_clear op ps w i = true <->
  forall j, i - w <= j <= i + w -> j <> i ->
            price_cmp op (nth j ps NaN) (nth i ps NaN) = false.
Proof.
  unfold fwindow_clear. rewrite forallb_forall. split.
  - intros H j Hj Hne.
    assert (Hin : In j (range (i - w) (i + w + 1))) by (apply range_In; lia).
    apply H in Hin. apply orb_true_iff in Hin. destruct Hin as [E|E].
    + apply Nat.eqb_eq in E. contradiction.
    + now apply negb_true_iff in E.
  - intros H j Hin. apply range_In in Hin.
    destruct (Nat.eqb j i) eqn:E; [reflexivity|].
    apply Nat.eqb_neq in E. cbn [orb]. apply negb_true_iff. apply H; [lia|exact E].
Qed.

Lemma fswing_positions_In op ps w i :
  In i (fswing_positions op ps w) <->
  (Z.of_nat w <= Z.of_nat i <= Z.of_nat (length ps) - Z.of_nat w - 1)%Z /\
  forall j, i - w <= j <= i + w -> j <> i ->
            price_cmp op (nth j ps NaN) (nth i ps NaN) = false.
Proof.
  unfold fswing_positions. rewrite filter_In, range_In, fwindow_clear_iff.
  split; intros [Hr Hw]; (split; [lia | exact Hw]).
Qed.

Lemma fswing_positions_sorted op ps w :
  StronglySorted lt (fswing_positions op ps w).
Proof. apply filter_StronglySorted, seq_StronglySorted. Qed.

Lemma map_index_fpoint_at c s l : map sp_index (map (fpoint_at c s) l) = l.
Proof.
  induction l as [|i l IH]; [reflexivity|]. cbn [map fpoint_at sp_index].
  now rewrite IH.
Qed.

Lemma price_ge_false a b : price_cmp Qge_bool a b = false <-> ~ price_le b a.
Proof.
  destruct a as [x|], b as [y|]; cbn [price_cmp price_le];
    try (split; [intros _ [] | reflexivity]).
  rewrite Qge_bool_false. split.
  - intros H Hle. exact (Qlt_not_le _ _ H Hle).
  - apply Qnot_le_lt.
Qed.

Lemma price_le_false a b : price_cmp Qle_bool a b = false <-> ~ price_le a b.
Proof.
  destruct a as [x|], b as [y|]; cbn [price_cmp price_le];
    try (split; [intros _ [] | reflexivity]).
  rewrite Qle_bool_false. split.
  - intros H Hle. exact (Qlt_not_le _ _ H Hle).
  - apply Qnot_le_lt.
Qed.

Lemma price_not_le a b : a <> NaN -> b <> NaN -> (~ price_le a b <-> price_lt b a).
Proof.
  destruct a as [x|], b as [y|]; try congruence. intros _ _.
  cbn [price_le price_lt]. split.
  - apply Qnot_le_lt.
  - intros H Hle. exact (Qlt_not_le _ _ H Hle).
Qed.

(** C2, as the code has it.  On every price series of length [n], whose
    prices may be NaN, [find_swing_highs] returns a swing point at position
    [i] exactly when [swing_length <= i <= n - swing_length - 1] and no other
    [j] of [[i - swing_length, i + swing_length]] has [high[j] >= high[i]], a
    comparison that is false when either side is NaN; when no high of that
    window is NaN this is: [high[j] < high[i]] for every other [j] of the
    window.  [find_swing_lows] does the same with [low[j] <= low[i]] and
    [low[i] < low[j]].  Each point carries the cell and the row label of its
    position, and both results are in ascending position order. *)
Theorem find_swing_points_spec (self : SMCAnalyzer) (s : FloatSeries) :
  exists hs ls,
    find_swing_highs self (fframe_of s) = ret hs /\
    find_swing_lows self (fframe_of s) = ret ls /\
    (forall i, In i (map sp_index hs) <->
       (Z.of_nat (swing_length self) <= Z.of_nat i
        <= Z.of_nat (length s) - Z.of_nat (swing_length self) - 1)%Z /\
       forall j, i - swing_length self <= j <= i + swing_length self ->
                 j <> i -> ~ price_le (fhigh_at s i) (fhigh_at s j)) /\
    (forall i, In i (map sp_index ls) <->
       (Z.of_nat (swing_length self) <= Z.of_nat i
        <= Z.of_nat (length s) - Z.of_nat (swing_length self) - 1)%Z /\
       forall j, i - swing_length self <= j <= i + swing_length self ->
                 j <> i -> ~ price_le (flow_at s j) (flow_at s i)) /\
    (forall i,
       (forall j, i - swing_length self <= j <= i + swing_length self ->
                  fhigh_at s j <> NaN) ->
       (In i (map sp_index hs) <->
        (Z.of_nat (swing_length self) <= Z.of_nat i
         <= Z.of_nat (length s) - Z.of_nat (swing_length self) - 1)%Z /\
        forall j, i - swing_length self <= j <= i + swing_length self ->
                  j <> i -> price_lt (fhigh_at s j) (fhigh_at s i))) /\
    (forall i,
       (forall j, i - swing_length self <= j <= i + swing_length self ->
                  flow_at s j <> NaN) ->
       (In i (map sp_index ls) <->
        (Z.of_nat (swing_length self) <= Z.of_nat i
         <= Z.of_nat (length s) - Z.of_nat (swing_length self) - 1)%Z /\
        forall j, i - swing_length self <= j <= i + swing_length self ->
                  j <> i -> price_lt (flow_at s i) (flow_at s j))) /\
    hs = map (fpoint_at High s) (map sp_index hs) /\
    ls = map (fpoint_at Low s) (map sp_index ls) /\
    StronglySorted lt (map sp_index hs) /\
    StronglySorted lt (map sp_index ls).
Proof.
  exists (map (fpoint_at High s)
            (fswing_positions Qge_bool (fcolumn_of High s) (swing_length self))).
  exists (map (fpoint_at Low s)
            (fswing_positions Qle_bool (fcolumn_of Low s) (swing_length self))).
  split; [apply find_swing_fseries|].
  split; [apply find_swing_fseries|].
  rewrite !map_index_fpoint_at.
  assert (Hh : forall i,
             In i (fswing_positions Qge_bool (fcolumn_of High s)
                     (swing_length self)) <->
             (Z.of_nat (swing_length self) <= Z.of_nat i
              <= Z.of_nat (length s) - Z.of_nat (swing_length self) - 1)%Z /\
             forall j, i - swing_length self <= j <= i + swing_length self ->
                       j <> i -> ~ price_le (fhigh_at s i) (fhigh_at s j)).
  { intros i. rewrite fswing_positions_In, fcolumn_of_length.
    split; intros [Hr Hw]; (split; [exact Hr|]); intros j Hj Hne;
      apply price_ge_false, Hw; assumption. }
  assert (Hl : forall i,
             In i (fswing_positions Qle_bool (fcolumn_of Low s)
                     (swing_length self)) <->
             (Z.of_nat (swing_length self) <= Z.of_nat i
              <= Z.of_nat (length s) - Z.of_nat (swing_length self) - 1)%Z /\
             forall j, i - swing_length self <= j <= i + swing_length self ->
                       j <> i -> ~ price_le (flow_at s j) (flow_at s i)).
  { intros i. rewrite fswing_positions_In, fcolumn_of_length.
    split; intros [Hr Hw]; (split; [exact Hr|]); intros j Hj Hne;
      apply price_le_false, Hw; assumption. }
  split; [exact Hh|]. split; [exact Hl|].
  split; [|split; [|split; [reflexivity|split; [reflexivity|]]]].
  - intros i Hnum. rewrite Hh.
    split; intros [Hr Hw]; (split; [exact Hr|]); intros j Hj Hne.
    + apply price_not_le; [apply Hnum; lia | now apply Hnum | now apply Hw].
    + apply price_not_le; [apply Hnum; lia | now apply Hnum | now apply Hw].
  - intros i Hnum. rewrite Hl.
    split; intros [Hr Hw]; (split; [exact Hr|]); intros j Hj Hne.
    + apply price_not_le; [now apply Hnum | apply Hnum; lia | now apply Hw].
    + apply price_not_le; [now apply Hnum | apply Hnum; lia | now apply Hw].
  - split; apply fswing_positions_sorted.
Qed.

(** C2, as stated, fails on the zig-zag with a NaN high at position 6: the
    scan returns position 6, whose high is not greater than the high at
    position 5 of its window, and still returns position 5. *)
Lemma nan_high_counterexample :
  find_swing_highs init (fframe_of nan_series)
  = ret [fpoint_at High nan_series 5; fpoint_at High nan_series 6;
         fpoint_at High nan_series 17] /\
  fhigh_at nan_series 6 = NaN /\
  ~ price_lt (fhigh_at nan_series 5) (fhigh_at nan_series 6).
Proof.
  split; [vm_compute; reflexivity|]. split; [reflexivity|].
  cbn. intros [].
Qed.

Lemma fswing_positions_apart op ps w i k :
  (forall x y, op x y = false -> op y x = false -> False) ->
  In i (fswing_positions op ps w) -> In k (fswing_positions op ps w) ->
  nth i ps NaN <> NaN -> nth k ps NaN <> NaN ->
  i <> k -> i + w + 1 <= k \/ k + w + 1 <= i.
Proof.
  intros Hanti Hi Hk Ni Nk Hne.
  apply fswing_positions_In in Hi, Hk.
  destruct Hi as [Hri Hwi], Hk as [Hrk Hwk].
  destruct (Nat.le_gt_cases (i + w + 1) k) as [|H1]; [now left|].
  destruct (Nat.le_gt_cases (k + w + 1) i) as [|H2]; [now right|].
  exfalso.
  assert (E1 : price_cmp op (nth k ps NaN) (nth i ps NaN) = false)
    by (apply Hwi; lia).
  assert (E2 : price_cmp op (nth i ps NaN) (nth k ps NaN) = false)
    by (apply Hwk; lia).
  destruct (nth i ps NaN) as [x|], (nth k ps NaN) as [y|]; try congruence.
  exact (Hanti _ _ E1 E2).
Qed.

Lemma fpoint_number c s i :
  is_number (sp_price (fpoint_at c s i)) = true ->
  nth i (fcolumn_of c s) NaN <> NaN.
Proof.
  cbn [fpoint_at sp_price]. destruct (nth i (fcolumn_of c s) NaN);
    cbn; congruence.
Qed.

(** C10, as the code has it.  On every price series, whose prices may be
    NaN, two distinct swing highs whose prices are both numbers lie at
    positions at least [swing_length + 1] apart, and so do two such swing
    lows.  (A row whose price is NaN passes the window test whatever its
    neighbours, and disqualifies none of them.) *)
Theorem swing_points_apart (self : SMCAnalyzer) (s : FloatSeries) :
  exists hs ls,
    find_swing_highs self (fframe_of s) = ret hs /\
    find_swing_lows self (fframe_of s) = ret ls /\
    (forall p q, In p hs -> In q hs -> p <> q ->
       is_number (sp_price p) = true -> is_number (sp_price q) = true ->
       sp_index p + (swing_length self + 1) <= sp_index q \/
       sp_index q + (swing_length self + 1) <= sp_index p) /\
    (forall p q, In p ls -> In q ls -> p <> q ->
       is_number (sp_price p) = true -> is_number (sp_price q) = true ->
       sp_index p + (swing_length self + 1) <= sp_index q \/
       sp_index q + (swing_length self + 1) <= sp_index p).
Proof.
  exists (map (fpoint_at High s)
            (fswing_positions Qge_bool (fcolumn_of High s) (swing_length self))).
  exists (map (fpoint_at Low s)
            (fswing_positions Qle_bool (fcolumn_of Low s) (swing_length self))).
  split; [apply find_swing_fseries|].
  split; [apply find_swing_fseries|].
  split; intros p q Hp Hq Hne Np Nq;
    apply in_map_iff in Hp; destruct Hp as (i & <- & Hi);
    apply in_map_iff in Hq; destruct Hq as (k & <- & Hk);
    apply fpoint_number in Np, Nq;
    cbn [fpoint_at sp_index];
    assert (Hik : i <> k) by congruence.
  - destruct (fswing_positions_apart Qge_bool (fcolumn_of High s)
                (swing_length self) i k Qge_bool_anti Hi Hk Np Nq Hik);
      lia.
  - destruct (fswing_positions_apart Qle_bool (fcolumn_of Low s)
                (swing_length self) i k Qle_bool_anti Hi Hk Np Nq Hik);
      lia.
Qed.

(** C10, as stated, fails on the zig-zag with a NaN high at position 6:
    positions 5 and 6 are both returned, one apart, with [swing_length] 5. *)
Lemma nan_neighbours_counterexample :
  exists hs p q,
    find_swing_highs init (fframe_of nan_series) = ret hs /\
    In p hs /\ In q hs /\ p <> q /\
    sp_index p = 5 /\ sp_index q = 6 /\
    ~ (sp_index p + (swing_length init + 1) <= sp_index q \/
       sp_index q + (swing_length init + 1) <= sp_index p).
Proof.
  exists [fpoint_at High nan_series 5; fpoint_at High nan_series 6;
          fpoint_at High nan_series 17].
  exists (fpoint_at High nan_series 5), (fpoint_at High nan_series 6).
  split; [vm_compute; reflexivity|].
  split; [now left|]. split; [right; now left|].
  split; [discriminate|]. split; [reflexivity|]. split; [reflexivity|].
  cbn. lia.
Qed.

Lemma fswing_positions_count op ps w :
  (forall x y, op x y = false -> op y x = false -> False) ->
  let numeric := filter (fun i => match nth i ps NaN with
                                  | Fin _ => true
                                  | NaN => false
                                  end) (fswing_positions op ps w) in
  numeric <> [] -> length numeric * (w + 1) + w <= length ps.
Proof.
  intros Hanti numeric Hne.
  assert (Hin : forall i, In i numeric ->
                          In i (fswing_positions op ps w) /\
                          nth i ps NaN <> NaN).
  { intros i Hi. apply filter_In in Hi. destruct Hi as [Hi Hn].
    split; [exact Hi|]. destruct (nth i ps NaN); congruence. }
  assert (Hr : forall i, In i numeric ->
                         w <= i <= length ps - w - 1 /\ 2 * w + 1 <= length ps).
  { intros i Hi. apply Hin in Hi. destruct Hi as [Hi _].
    apply fswing_positions_In in Hi. lia. }
  assert (Hs : StronglySorted lt numeric)
    by apply filter_StronglySorted, fswing_positions_sorted.
  pose proof (spaced_span (w + 1) numeric w (length ps - w - 1) Hs) as H.
  destruct numeric as [|a l] eqn:E; [congruence|].
  assert (Hn : 2 * w + 1 <= length ps) by (apply (Hr a); now left).
  assert (Hspan : w + (length (a :: l) - 1) * (w + 1) <= length ps - w - 1).
  { apply H.
    - intros i k Hi Hk Hlt.
      destruct (Hin i Hi) as [Pi Ni]. destruct (Hin k Hk) as [Pk Nk].
      destruct (fswing_positions_apart op ps w i k Hanti Pi Pk Ni Nk); lia.
    - intros i Hi. now apply Hr.
    - discriminate. }
  cbn [length] in *. nia.
Qed.

Lemma filter_number_fpoints c s l :
  filter (fun p => is_number (sp_price p)) (map (fpoint_at c s) l)
  = map (fpoint_at c s)
      (filter (fun i => match nth i (fcolumn_of c s) NaN with
                        | Fin _ => true
                        | NaN => false
                        end) l).
Proof.
  rewrite filter_map_swap. f_equal. apply filter_ext. intros i.
  cbn [fpoint_at sp_price]. destruct (nth i (fcolumn_of c s) NaN); reflexivity.
Qed.

(** X2: in a series of [n] bars, whose prices may be NaN, the swing highs
    whose price is a number, when there are any, number at most
    [(n - swing_length) / (swing_length + 1)]: their count [c] satisfies
    [c * (swing_length + 1) + swing_length <= n].  The same holds of the
    swing lows. *)
Theorem swing_count_bound (self : SMCAnalyzer) (s : FloatSeries) :
  exists hs ls,
    find_swing_highs self (fframe_of s) = ret hs /\
    find_swing_lows self (fframe_of s) = ret ls /\
    (filter (fun p => is_number (sp_price p)) hs <> [] ->
     length (filter (fun p => is_number (sp_price p)) hs)
     * (swing_length self + 1) + swing_length self <= length s) /\
    (filter (fun p => is_number (sp_price p)) ls <> [] ->
     length (filter (fun p => is_number (sp_price p)) ls)
     * (swing_length self + 1) + swing_length self <= length s).
Proof.
  exists (map (fpoint_at High s)
            (fswing_positions Qge_bool (fcolumn_of High s) (swing_length self))).
  exists (map (fpoint_at Low s)
            (fswing_positions Qle_bool (fcolumn_of Low s) (swing_length self))).
  split; [apply find_swing_fseries|].
  split; [apply find_swing_fseries|].
  rewrite !filter_number_fpoints, !length_map.
  split; intros Hne.
  - rewrite <- (fcolumn_of_length High s).
    apply (fswing_positions_count Qge_bool _ _ Qge_bool_anti).
    intros E. apply Hne. now rewrite E.
  - rewrite <- (fcolumn_of_length Low s).
    apply (fswing_positions_count Qle_bool _ _ Qle_bool_anti).
    intros E. apply Hne. now rewrite E.
Qed.
